(** * Apex Financial account-opening agent: a shallow embedding

    The development follows the two source files of the repository,
    [server/agent.py] (field validation, tool handlers, session store and
    the bounded agent loop) and [server/main.py] (the pydantic request
    models and the two HTTP endpoints).

    Conventions.
    - A Python [str] is a [string]; a character is a code point in the range
      U+0000..U+00FF.  The text constants of the source that use characters
      beyond that range are kept as their UTF-8 bytes: they are only ever
      concatenated and compared.
    - A Python value is None, a boolean, an integer or a string: the
      scalars of JSON without the floats.  A Python [dict] is a
      [gmap string PyVal]; dictionaries are not nested.
    - What the code reads from its environment is an explicit input: the
      current date, the replies of the chat-completion service, the strings
      [uuid.uuid4] returns and the draws of [random.choices].
    - A Python exception is a value of type [Exn]; code that can raise
      returns [Exn + A]. *)

From Stdlib Require Import ZArith Ascii String List Bool Lia.
From stdpp Require Import gmap strings list fin_maps pretty.
Import ListNotations.
Local Open Scope string_scope.

(** ** Python values and exceptions *)

Inductive PyVal :=
| PyNone
| PyBool (b : bool)
| PyInt (z : Z)
| PyStr (s : string).

Abbreviation dict := (gmap string PyVal).

Inductive Exn :=
| APIError (detail : string)        (* raised by the chat-completion client *)
| JSONDecodeError (detail : string) (* raised by json.loads *)
| KeyError (key : string)           (* d[key] on a missing key *)
| AttributeError (detail : string)  (* a method looked up on a value without it *)
| TypeError (detail : string).      (* subscript or call on a value of the wrong type *)

(** [str(x)], as an f-string formats a value. *)
Definition py_str (x : PyVal) : string :=
  match x with
  | PyNone => "None"
  | PyBool true => "True"
  | PyBool false => "False"
  | PyInt z => pretty z
  | PyStr s => s
  end.

(** Truthiness of a value, as [if x:] tests it. *)
Definition truthy (x : PyVal) : bool :=
  match x with
  | PyNone => false
  | PyBool b => b
  | PyInt z => negb (z =? 0)%Z
  | PyStr s => negb (String.eqb s "")
  end.

(** ** Strings *)

Module PyStr.

Definition code (c : ascii) : nat := nat_of_ascii c.

Definition between (lo hi : nat) (c : ascii) : bool :=
  (lo <=? code c)%nat && (code c <=? hi)%nat.

(** [str.isspace] on one character, which is also the class [\s] of [re]:
    TAB..CR, FS..US, space, NEL and NBSP. *)
Definition isspace (c : ascii) : bool :=
  between 9 13 c || between 28 32 c || (code c =? 133)%nat || (code c =? 160)%nat.

(** The class [\d]: the decimal digits. *)
Definition isdigit (c : ascii) : bool := between 48 57 c.

Definition islower (c : ascii) : bool := between 97 122 c.
Definition isupper (c : ascii) : bool := between 65 90 c.

Fixpoint lstrip (s : string) : string :=
  match s with
  | EmptyString => EmptyString
  | String c s' => if isspace c then lstrip s' else s
  end.

Fixpoint rstrip (s : string) : string :=
  match s with
  | EmptyString => EmptyString
  | String c s' =>
      match rstrip s' with
      | EmptyString => if isspace c then EmptyString else String c EmptyString
      | r => String c r
      end
  end.

(** [s.strip()] *)
Definition strip (s : string) : string := rstrip (lstrip s).

(** [s.upper()], character by character.  a-z and the accented lower-case
    letters move down by 32, the sharp s becomes SS; the micro sign and
    y-diaeresis, whose capitals lie beyond U+00FF, are left in place
    (neither form is an ASCII letter). *)
Definition upper_char (c : ascii) : string :=
  if islower c then String (ascii_of_nat (code c - 32)) EmptyString
  else if (code c =? 223)%nat then "SS"
  else if between 224 254 c && negb (code c =? 247)%nat
       then String (ascii_of_nat (code c - 32)) EmptyString
  else String c EmptyString.

Fixpoint upper (s : string) : string :=
  match s with
  | EmptyString => EmptyString
  | String c s' => upper_char c +:+ upper s'
  end.

Fixpoint filter (p : ascii -> bool) (s : string) : string :=
  match s with
  | EmptyString => EmptyString
  | String c s' => if p c then String c (filter p s') else filter p s'
  end.

(** [len(s)] *)
Definition len (s : string) : nat := String.length s.

(** [s.startswith(p)] *)
Definition startswith (s p : string) : bool := String.prefix p s.

(** [not s] for a string. *)
Definition is_empty (s : string) : bool :=
  match s with EmptyString => true | _ => false end.

(** [int(s)] on a string of decimal digits. *)
Fixpoint int_acc (acc : Z) (s : string) : Z :=
  match s with
  | EmptyString => acc
  | String c s' => int_acc (10 * acc + Z.of_nat (code c - 48)) s'
  end.
Definition int (s : string) : Z := int_acc 0 s.

(** The slice [s[i:i+n]]. *)
Definition slice (i n : nat) (s : string) : string := String.substring i n s.

End PyStr.

(** ** Regular expressions

  The patterns of the source are all of the form [^ body $] and are used
  through [re.match] for a yes/no answer, so language membership decides
  them; membership is computed with Brzozowski derivatives. *)

Module Re.

Inductive regex :=
| Void
| Eps
| Class (p : ascii -> bool)
| Seq (r1 r2 : regex)
| Alt (r1 r2 : regex)
| Star (r : regex).

(** [r+] and [r{n}] *)
Definition Plus (r : regex) : regex := Seq r (Star r).
Fixpoint Times (n : nat) (r : regex) : regex :=
  match n with
  | O => Eps
  | S n' => Seq r (Times n' r)
  end.
Definition Lit (c : ascii) : regex := Class (Ascii.eqb c).

Fixpoint nullable (r : regex) : bool :=
  match r with
  | Void => false
  | Eps => true
  | Class _ => false
  | Seq r1 r2 => nullable r1 && nullable r2
  | Alt r1 r2 => nullable r1 || nullable r2
  | Star _ => true
  end.

Fixpoint deriv (c : ascii) (r : regex) : regex :=
  match r with
  | Void => Void
  | Eps => Void
  | Class p => if p c then Eps else Void
  | Seq r1 r2 =>
      if nullable r1
      then Alt (Seq (deriv c r1) r2) (deriv c r2)
      else Seq (deriv c r1) r2
  | Alt r1 r2 => Alt (deriv c r1) (deriv c r2)
  | Star r' => Seq (deriv c r') (Star r')
  end.

Fixpoint fullmatch (r : regex) (s : string) : bool :=
  match s with
  | EmptyString => nullable r
  | String c s' => fullmatch (deriv c r) s'
  end.

(** The string without its final character when that is a line feed. *)
Fixpoint chomp (s : string) : option string :=
  match s with
  | EmptyString => None
  | String c EmptyString => if (PyStr.code c =? 10)%nat then Some EmptyString else None
  | String c s' => option_map (String c) (chomp s')
  end.

(** [re.match("^" body "$", s)] is not None: [$] matches at the end of
    the string and also just before a line feed that ends it. *)
Definition match_ (body : regex) (s : string) : bool :=
  fullmatch body s ||
  match chomp s with
  | Some s' => fullmatch body s'
  | None => false
  end.

(** [re.sub(r"\D", "", s)] *)
Definition sub_nondigits (s : string) : string := PyStr.filter PyStr.isdigit s.

(** The classes and patterns of the source. *)

(** [[a-zA-Z\s'-]] *)
Definition name_char (c : ascii) : bool :=
  PyStr.islower c || PyStr.isupper c || PyStr.isspace c ||
  (PyStr.code c =? 39)%nat || (PyStr.code c =? 45)%nat.

(** [[^\s@]] *)
Definition email_char (c : ascii) : bool :=
  negb (PyStr.isspace c || (PyStr.code c =? 64)%nat).

Definition digit : regex := Class PyStr.isdigit.

(** [^[a-zA-Z\s'-]+$] *)
Definition NAME : regex := Plus (Class name_char).

(** [^[^\s@]+@[^\s@]+\.[^\s@]+$] *)
Definition EMAIL : regex :=
  Seq (Plus (Class email_char))
    (Seq (Lit "@")
       (Seq (Plus (Class email_char))
          (Seq (Lit ".") (Plus (Class email_char))))).

(** [^\d{2}/\d{2}/\d{4}$] *)
Definition DATE_MDY : regex :=
  Seq (Times 2 digit) (Seq (Lit "/") (Seq (Times 2 digit) (Seq (Lit "/") (Times 4 digit)))).

(** [^\d{4}-\d{2}-\d{2}$] *)
Definition DATE_YMD : regex :=
  Seq (Times 4 digit) (Seq (Lit "-") (Seq (Times 2 digit) (Seq (Lit "-") (Times 2 digit)))).

(** [^\d{5}$] *)
Definition ZIP : regex := Times 5 digit.

End Re.

(** ** Dates *)

Module DateTime.

(** [datetime.date]: a day of the proleptic Gregorian calendar. *)
Record date := Date { year : Z; month : Z; day : Z }.

Definition is_leap (y : Z) : bool :=
  ((y mod 4 =? 0) && (negb (y mod 100 =? 0) || (y mod 400 =? 0)))%Z.

Definition days_in_month (y m : Z) : Z :=
  if (m =? 2)%Z then (if is_leap y then 29 else 28)%Z
  else if ((m =? 4) || (m =? 6) || (m =? 9) || (m =? 11))%Z then 30%Z
  else 31%Z.

(** The constructor [date(y, m, d)]; [None] stands for its ValueError. *)
Definition make_date (y m d : Z) : option date :=
  if ((1 <=? y) && (y <=? 9999) && (1 <=? m) && (m <=? 12) &&
      (1 <=? d) && (d <=? days_in_month y m))%Z
  then Some (Date y m d) else None.

Definition all_digits (s : string) : bool :=
  String.eqb (PyStr.filter PyStr.isdigit s) s.

(** [datetime.strptime(v, "%m/%d/%Y").date()] and
    [datetime.strptime(v, "%Y-%m-%d").date()] on the fixed-width inputs
    the guards in the source let through: two-digit month and day, a
    four-digit year, the separator in between.  [None] is ValueError,
    raised for a field out of range or a day the month does not have. *)
Definition strptime_mdY (v : string) : option date :=
  let mm := PyStr.slice 0 2 v in
  let dd := PyStr.slice 3 2 v in
  let yy := PyStr.slice 6 4 v in
  if (PyStr.len v =? 10)%nat && all_digits mm && all_digits dd && all_digits yy
     && String.eqb (PyStr.slice 2 1 v) "/" && String.eqb (PyStr.slice 5 1 v) "/"
  then make_date (PyStr.int yy) (PyStr.int mm) (PyStr.int dd)
  else None.

Definition strptime_Ymd (v : string) : option date :=
  let yy := PyStr.slice 0 4 v in
  let mm := PyStr.slice 5 2 v in
  let dd := PyStr.slice 8 2 v in
  if (PyStr.len v =? 10)%nat && all_digits mm && all_digits dd && all_digits yy
     && String.eqb (PyStr.slice 4 1 v) "-" && String.eqb (PyStr.slice 7 1 v) "-"
  then make_date (PyStr.int yy) (PyStr.int mm) (PyStr.int dd)
  else None.

(** [(a1, a2) < (b1, b2)] on pairs of integers. *)
Definition pair_ltb (a1 a2 b1 b2 : Z) : bool :=
  ((a1 <? b1) || ((a1 =? b1) && (a2 <? b2)))%Z.

(** [today.year - dob.year - ((today.month, today.day) < (dob.month, dob.day))] *)
Definition age (today dob : date) : Z :=
  (year today - year dob
   - (if pair_ltb (month today) (day today) (month dob) (day dob) then 1 else 0))%Z.

End DateTime.

(** ** server/agent.py *)

Module Agent.

Import DateTime.

(** The double quote, for the text constants that contain it. *)
Definition dq : string := String (ascii_of_nat 34) EmptyString.

Definition SYSTEM_PROMPT : string :=
  "You are Apex, the AI banking assistant for Apex Financial. Your job is to help customers open a new checking account.

## Your Personality
- Professional yet friendly and warm
- Concise — keep responses short (1-3 sentences max)
- Use occasional emojis to feel approachable (👋, ✅, 🔒, 🎉) but don't overdo it

## Account Opening Process
You MUST collect the following information, ONE FIELD AT A TIME, in this order:
1. First name
2. Last name
3. Email address
4. Phone number (10 digits)
5. Date of birth (MM/DD/YYYY format, must be 18+)
6. Social Security Number (9 digits — reassure the user it's encrypted and secure)
7. Street address
8. City
9. State (2-letter US state code)
10. ZIP code (5 digits)

## Rules
- Ask for ONE piece of information at a time. Never ask for multiple fields in a single message.
- After the user provides a value, ALWAYS call the validate_field tool to check it before moving on.
- If validation fails, tell the user the error and ask them to re-enter that field.
- If validation succeeds, acknowledge briefly and ask for the next field.
- After ALL 10 fields are collected and validated, present a summary of the information and ask the user to confirm it's correct.
- If the user wants to edit, ask which field they'd like to change and re-collect just that field.
- Once confirmed, call show_agreement to retrieve the Terms & Conditions.
- Present a BRIEF summary of the key terms (fees, FDIC insurance, privacy) and ask the user to type "
  +:+ dq +:+
  "I agree"
  +:+ dq +:+
  " to accept.
- Only after the user explicitly agrees (says "
  +:+ dq +:+
  "I agree"
  +:+ dq +:+
  ", "
  +:+ dq +:+
  "yes I agree"
  +:+ dq +:+
  ", "
  +:+ dq +:+
  "agree"
  +:+ dq +:+
  ", etc.), call create_account with all the collected data.
- If the user declines, respect their decision and let them know they can come back anytime.
- NEVER fabricate or assume data. ALWAYS use the values the user provides.
- If the user asks unrelated questions, politely redirect them back to the account opening process.
- When presenting the review summary, mask the SSN showing only the last 4 digits (e.g., ***-**-6789).

## Important
- You are ONLY able to help with opening checking accounts. For other products (credit cards, savings), let the user know those services are coming soon.
- Always maintain context of what has already been collected so you don't re-ask for information.
".

Definition TERMS_AND_CONDITIONS : string :=
  "
APEX FINANCIAL — CHECKING ACCOUNT TERMS & CONDITIONS
Effective Date: January 1, 2026

1. ACCOUNT AGREEMENT — By opening a checking account with Apex Financial, you agree to these terms.
2. ELIGIBILITY — Must be 18+ and a legal U.S. resident.
3. ACCOUNT OWNERSHIP — Account held in name(s) provided during application.
4. DEPOSITS & WITHDRAWALS — Via direct deposit, mobile check deposit, wire transfer, debit card, ATM, or check.
5. FEES — Monthly Maintenance: $0 | ATM (non-network): $0 | Overdraft: $0 | Domestic Wire: $15 | International Wire: $30
6. ELECTRONIC COMMUNICATIONS — You consent to receive statements and notices electronically.
7. PRIVACY — Your personal information (including SSN) is securely stored and never sold to third parties.
8. FDIC INSURANCE — Deposits insured up to $250,000 per depositor.
9. ACCOUNT CLOSURE — You may close at any time; Bank may close with 30 days notice.
10. GOVERNING LAW — Governed by Delaware state and federal law.
11. DISPUTE RESOLUTION — Binding arbitration via American Arbitration Association.
".

Definition VALID_STATES : gset string :=
  list_to_set
    ["AL";"AK";"AZ";"AR";"CA";"CO";"CT";"DE";"FL";"GA";
     "HI";"ID";"IL";"IN";"IA";"KS";"KY";"LA";"ME";"MD";
     "MA";"MI";"MN";"MS";"MO";"MT";"NE";"NV";"NH";"NJ";
     "NM";"NY";"NC";"ND";"OH";"OK";"OR";"PA";"RI";"SC";
     "SD";"TN";"TX";"UT";"VT";"VA";"WA";"WV";"WI";"WY";"DC"].

(** The names of the ten fields: the enumeration of [field_name] in the
    tool catalogue [TOOLS]. *)
Definition FIELD_NAMES : list string :=
  ["firstName"; "lastName"; "email"; "phone"; "dateOfBirth"; "ssn";
   "street"; "city"; "state"; "zip"].

(** The tool catalogue sent with every request to the completion service. *)

(** One property of a tool's parameters in [TOOLS]: its name, its JSON
    type, its enumeration and its description, the last two optional. *)
Record Property := {
  prop_name : string;
  prop_type : string;
  prop_enum : option (list string);
  prop_description : option string
}.

(** One entry of [TOOLS]: the name and description of the function, the
    properties of its parameter object and the names of the required ones. *)
Record ToolSpec := {
  tool_name : string;
  tool_description : string;
  tool_properties : list Property;
  tool_required : list string
}.

Definition plain (name : string) : Property :=
  {| prop_name := name; prop_type := "string"; prop_enum := None; prop_description := None |}.

Definition described (name description : string) : Property :=
  {| prop_name := name; prop_type := "string"; prop_enum := None;
     prop_description := Some description |}.

Definition TOOLS : list ToolSpec :=
  [ {| tool_name := "validate_field";
       tool_description := "Validate a single form field value for the checking account application. Call this every time the user provides a value for a field.";
       tool_properties :=
         [ {| prop_name := "field_name"; prop_type := "string";
              prop_enum := Some FIELD_NAMES;
              prop_description := Some "The name of the field to validate" |};
           described "value" "The value provided by the user" ];
       tool_required := ["field_name"; "value"] |};
    {| tool_name := "show_agreement";
       tool_description := "Retrieve the Terms & Conditions document. Call this after all fields are collected and confirmed by the user, before account creation.";
       tool_properties := [];
       tool_required := [] |};
    {| tool_name := "create_account";
       tool_description := "Create the checking account after the user has agreed to the Terms & Conditions. Pass all validated customer data.";
       tool_properties :=
         [ plain "firstName"; plain "lastName"; plain "email";
           described "phone" "10-digit phone number";
           described "dateOfBirth" "Date in MM/DD/YYYY or YYYY-MM-DD format";
           described "ssn" "9-digit SSN";
           plain "street"; plain "city";
           described "state" "2-letter US state code";
           described "zip" "5-digit ZIP code" ];
       tool_required :=
         ["firstName"; "lastName"; "email"; "phone"; "dateOfBirth"; "ssn";
          "street"; "city"; "state"; "zip"] |} ].

(** The two shapes of dictionary [validate_field] returns. *)
Definition reject (message : string) : dict :=
  {[ "valid" := PyBool false; "message" := PyStr message ]}.

Definition accept (cleaned_value : string) : dict :=
  {[ "valid" := PyBool true; "message" := PyStr "Valid";
     "cleaned_value" := PyStr cleaned_value ]}.

(** The tail of the dateOfBirth branch, once [dob] is parsed. *)
Definition check_age (today dob : date) (v : string) : dict :=
  let age := age today dob in
  if (age <? 18)%Z then reject "You must be at least 18 years old."
  else if (120 <? age)%Z then reject "Please enter a valid date of birth."
  else accept v.

(** [validate_field(field_name, value)]; [today] is what [date.today()]
    returns. *)
Definition validate_field (today : date) (field_name value : string) : dict :=
  let v := PyStr.strip value in
  if String.eqb field_name "firstName" || String.eqb field_name "lastName" then
    let label := if String.eqb field_name "firstName" then "First name" else "Last name" in
    if PyStr.is_empty v then reject (label +:+ " is required.")
    else if (PyStr.len v <? 2)%nat || (50 <? PyStr.len v)%nat
      then reject (label +:+ " must be 2–50 characters.")
    else if negb (Re.match_ Re.NAME v)
      then reject (label +:+ " can only contain letters, spaces, hyphens, and apostrophes.")
    else accept v
  else if String.eqb field_name "email" then
    if PyStr.is_empty v then reject "Email is required."
    else if negb (Re.match_ Re.EMAIL v) then reject "Please enter a valid email address."
    else accept v
  else if String.eqb field_name "phone" then
    let digits := Re.sub_nondigits v in
    if negb (PyStr.len digits =? 10)%nat then reject "Phone number must be exactly 10 digits."
    else accept digits
  else if String.eqb field_name "dateOfBirth" then
    if PyStr.is_empty v then reject "Date of birth is required."
    else if Re.match_ Re.DATE_MDY v then
      match strptime_mdY v with
      | None => reject "Invalid date. Use MM/DD/YYYY format."
      | Some dob => check_age today dob v
      end
    else if Re.match_ Re.DATE_YMD v then
      match strptime_Ymd v with
      | None => reject "Invalid date. Use YYYY-MM-DD format."
      | Some dob => check_age today dob v
      end
    else reject "Please enter date in MM/DD/YYYY format."
  else if String.eqb field_name "ssn" then
    let digits := Re.sub_nondigits v in
    if negb (PyStr.len digits =? 9)%nat then reject "SSN must be exactly 9 digits."
    else if PyStr.startswith digits "000" || PyStr.startswith digits "666"
            || PyStr.startswith digits "9"
      then reject "Please enter a valid SSN."
    else accept digits
  else if String.eqb field_name "street" then
    if (PyStr.len v <? 5)%nat || (100 <? PyStr.len v)%nat
      then reject "Street address must be 5–100 characters."
    else accept v
  else if String.eqb field_name "city" then
    if negb (Re.match_ Re.NAME v) then reject "City can only contain letters and spaces."
    else accept v
  else if String.eqb field_name "state" then
    let v := PyStr.upper v in
    if negb (bool_decide (v ∈ VALID_STATES))
      then reject "Please enter a valid 2-letter US state code (e.g., CA, NY, TX)."
    else accept v
  else if String.eqb field_name "zip" then
    if negb (Re.match_ Re.ZIP v) then reject "ZIP code must be exactly 5 digits."
    else accept v
  else reject ("Unknown field: " +:+ field_name).

Definition show_agreement : dict :=
  {[ "terms" := PyStr (PyStr.strip TERMS_AND_CONDITIONS);
     "instruction" :=
       PyStr "Present these terms to the user and ask them to type 'I agree' to accept." ]}.

(** *** The environment and the state of the process *)

(** What [json.loads] makes of a text: a scalar, an array, or an object
    whose members are scalars. *)
Inductive JSON :=
| JScalar (v : PyVal)
| JArray
| JObject (d : dict).

(** The argument text of a tool invocation, kept as what it parses to. *)
Inductive ArgText :=
| NotJSON (text : string)
| IsJSON (j : JSON).

Definition json_loads (a : ArgText) : Exn + JSON :=
  match a with
  | NotJSON text => inl (JSONDecodeError text)
  | IsJSON j => inr j
  end.

(** [tool_call.id], [tool_call.function.name], [tool_call.function.arguments] *)
Record ToolCall := { tc_id : string; tc_name : string; tc_arguments : ArgText }.

(** A message of the transcript, by role.  An assistant message that
    records tool calls has the key [tool_calls]; the content of a tool
    message is the result dictionary that [json.dumps] serialises
    ([json.loads] of it gives the dictionary back). *)
Inductive Turn :=
| System (content : string)
| User (content : string)
| AssistantCalls (content : option string) (tool_calls : list ToolCall)
| Assistant (content : string)
| Tool (tool_call_id : string) (content : dict).

(** The outcome of one call of [client.chat.completions.create]: it raises,
    or returns a message with optional content and a list of tool calls
    (empty for none). *)
Inductive Completion :=
| Raises (detail : string)
| Message (content : option string) (tool_calls : list ToolCall).

(** The environment of a run: the date, the outcome of the k-th call of
    the completion service, the k-th string [uuid.uuid4()] returns, and the
    k-th index [random.choices] draws. *)
Record Env := {
  today : date;
  completion : nat -> Completion;
  uuid4 : nat -> string;
  rand : nat -> nat
}.

(** The state of the process: the module-level [sessions] dictionary, how
    many uuids and random indices were drawn, and the transcripts sent to
    the completion service so far (a log the proofs read; the k-th
    call is the one that finds k entries in it). *)
Record World := {
  sessions : gmap string (list Turn);
  uuid_drawn : nat;
  rand_drawn : nat;
  requests : list (list Turn)
}.

Definition set_sessions (f : gmap string (list Turn) -> gmap string (list Turn))
    (w : World) : World :=
  {| sessions := f (sessions w); uuid_drawn := uuid_drawn w;
     rand_drawn := rand_drawn w; requests := requests w |}.

(** Computations that read and write the state and may raise; what was
    written before an exception stays written. *)
Definition M (A : Type) : Type := World -> (Exn + A) * World.

Definition ret {A} (a : A) : M A := fun w => (inr a, w).
Definition raise {A} (e : Exn) : M A := fun w => (inl e, w).
Definition lift {A} (r : Exn + A) : M A := fun w => (r, w).
Definition bind {A B} (m : M A) (k : A -> M B) : M B :=
  fun w =>
    match m w with
    | (inl e, w') => (inl e, w')
    | (inr a, w') => k a w'
    end.

Notation "x <- m ;; k" := (bind m (fun x => k))
  (at level 100, m at next level, right associativity).
Notation "m ;;; k" := (bind m (fun _ => k))
  (at level 100, right associativity).

(** [str(uuid.uuid4())] *)
Definition new_uuid (env : Env) : M string :=
  fun w =>
    (inr (uuid4 env (uuid_drawn w)),
     {| sessions := sessions w; uuid_drawn := S (uuid_drawn w);
        rand_drawn := rand_drawn w; requests := requests w |}).

Definition digit_char (i : nat) : ascii := ascii_of_nat (48 + i mod 10).

(** ["".join(random.choices(string.digits, k=k))] *)
Definition random_digits (env : Env) (k : nat) : M string :=
  fun w =>
    (inr (string_of_list_ascii
            (map (fun i => digit_char (rand env (rand_drawn w + i))) (seq 0 k))),
     {| sessions := sessions w; uuid_drawn := uuid_drawn w;
        rand_drawn := rand_drawn w + k; requests := requests w |}).

(** [d.get(key, default)] *)
Definition dict_get (d : dict) (key : string) (default : PyVal) : PyVal :=
  match d !! key with Some v => v | None => default end.

(** [d[key]] *)
Definition dict_item (d : dict) (key : string) : Exn + PyVal :=
  match d !! key with Some v => inr v | None => inl (KeyError key) end.

(** [arguments[key]] and [data.get(key, default)] on a parsed argument
    text, which need not be an object. *)
Definition json_item (j : JSON) (key : string) : Exn + PyVal :=
  match j with
  | JObject d => dict_item d key
  | _ => inl (TypeError "not subscriptable by a string")
  end.

Definition json_get (j : JSON) (key : string) (default : PyVal) : Exn + PyVal :=
  match j with
  | JObject d => inr (dict_get d key default)
  | _ => inl (AttributeError "get")
  end.

(** [create_account(data)] *)
Definition create_account (env : Env) (data : JSON) : M dict :=
  account_number <- random_digits env 10 ;;
  routing_number <- random_digits env 9 ;;
  first <- lift (json_get data "firstName" (PyStr "")) ;;
  last <- lift (json_get data "lastName" (PyStr "")) ;;
  ret ({[ "success" := PyBool true;
          "accountNumber" := PyStr account_number;
          "routingNumber" := PyStr routing_number;
          "accountType" := PyStr "Checking";
          "customerName" := PyStr (py_str first +:+ " " +:+ py_str last);
          "message" := PyStr "Account created successfully!" ]} : dict).

(** The call [validate_field(arguments["field_name"], arguments["value"])]
    on values of any type: [value.strip()] needs a string; a field name
    that is not a string equals none of the ten names and is formatted
    into the last message, as its [py_str] is. *)
Definition call_validate_field (env : Env) (field_name value : PyVal) : Exn + dict :=
  match value with
  | PyStr s => inr (validate_field (today env) (py_str field_name) s)
  | _ => inl (AttributeError "strip")
  end.

(** [execute_tool(tool_name, arguments)], before [json.dumps]. *)
Definition execute_tool (env : Env) (tool_name : string) (arguments : JSON) : M dict :=
  if String.eqb tool_name "validate_field" then
    field_name <- lift (json_item arguments "field_name") ;;
    value <- lift (json_item arguments "value") ;;
    lift (call_validate_field env field_name value)
  else if String.eqb tool_name "show_agreement" then
    ret show_agreement
  else if String.eqb tool_name "create_account" then
    create_account env arguments
  else
    ret ({[ "error" := PyStr ("Unknown tool: " +:+ tool_name) ]} : dict).

(** *** Session management *)

(** [not session_id]: the identifier is None or the empty string. *)
Definition absent (session_id : option string) : bool :=
  match session_id with
  | None => true
  | Some s => PyStr.is_empty s
  end.

Definition in_sessions (session_id : option string) (w : World) : bool :=
  match session_id with
  | None => false
  | Some s => bool_decide (is_Some (sessions w !! s))
  end.

(** [history = sessions[session_id]]: the list object stored under the key. *)
Definition history (session_id : string) (w : World) : list Turn :=
  default [] (sessions w !! session_id).

(** [get_or_create_session(session_id)].  The list it returns is the object
    stored in [sessions]; the callers below append to it through the key. *)
Definition get_or_create_session (env : Env) (session_id : option string)
    : M (string * list Turn) :=
  fun w =>
    if absent session_id || negb (in_sessions session_id w) then
      (session_id <-
         match session_id with
         | Some s => if PyStr.is_empty s then new_uuid env else ret s
         | None => new_uuid env
         end ;;
       fun w1 =>
         let w2 := set_sessions (insert session_id [System SYSTEM_PROMPT]) w1 in
         (inr (session_id, history session_id w2), w2)) w
    else
      match session_id with
      | Some s => (inr (s, history s w), w)
      | None => (inl (KeyError "None"), w)
      end.

(** [history.append(turn)] on the list stored under [session_id]. *)
Definition append (session_id : string) (turn : Turn) : M unit :=
  fun w => (inr tt, set_sessions (alter (fun h => (h ++ [turn])%list) session_id) w).

(** *** The agent loop *)

(** [client.chat.completions.create(model=MODEL, messages=history, ...)]
    followed by [response.choices[0].message]. *)
Definition create_completion (env : Env) (session_id : string)
    : M (option string * list ToolCall) :=
  fun w =>
    let w' := {| sessions := sessions w; uuid_drawn := uuid_drawn w;
                 rand_drawn := rand_drawn w;
                 requests := (requests w ++ [history session_id w])%list |} in
    match completion env (length (requests w)) with
    | Raises detail => (inl (APIError detail), w')
    | Message content tool_calls => (inr (content, tool_calls), w')
    end.

(** The block under [if fn_name == "create_account":]. *)
Definition capture_account (fn_name : string) (tool_result metadata : dict) : Exn + dict :=
  if String.eqb fn_name "create_account" then
    if truthy (dict_get tool_result "success" PyNone) then
      match dict_item tool_result "accountNumber" with
      | inl e => inl e
      | inr account_number =>
          match dict_item tool_result "routingNumber" with
          | inl e => inl e
          | inr routing_number =>
              match dict_item tool_result "accountType" with
              | inl e => inl e
              | inr account_type =>
                  inr (<["accountType" := account_type]>
                       (<["routingNumber" := routing_number]>
                        (<["accountNumber" := account_number]>
                         (<["accountCreated" := PyBool true]> metadata))))
              end
          end
      end
    else inr metadata
  else inr metadata.

(** The body of [for tool_call in assistant_message.tool_calls:]. *)
Definition run_tool_call (env : Env) (session_id : string) (tool_call : ToolCall)
    (metadata : dict) : M dict :=
  let fn_name := tc_name tool_call in
  fn_args <- lift (json_loads (tc_arguments tool_call)) ;;
  tool_result <- execute_tool env fn_name fn_args ;;
  metadata' <- lift (capture_account fn_name tool_result metadata) ;;
  append session_id (Tool (tc_id tool_call) tool_result) ;;;
  ret metadata'.

Fixpoint run_tool_calls (env : Env) (session_id : string) (tool_calls : list ToolCall)
    (metadata : dict) : M dict :=
  match tool_calls with
  | [] => ret metadata
  | tool_call :: rest =>
      metadata' <- run_tool_call env session_id tool_call metadata ;;
      run_tool_calls env session_id rest metadata'
  end.

(** What [process_message] returns. *)
Record Reply := { sessionId : string; reply : string; metadata : dict }.

Definition fallback : string :=
  "I'm sorry, I encountered an issue processing your request. Please try again.".

Definition max_iterations : nat := 10.

(** [for _ in range(n): ...] followed by the fallback; [n] counts the
    iterations that remain. *)
Fixpoint agent_loop (env : Env) (n : nat) (session_id : string) (metadata : dict)
    : M Reply :=
  match n with
  | O =>
      append session_id (Assistant fallback) ;;;
      ret {| sessionId := session_id; reply := fallback; metadata := metadata |}
  | S n' =>
      assistant_message <- create_completion env session_id ;;
      let '(content, tool_calls) := assistant_message in
      match tool_calls with
      | _ :: _ =>
          append session_id (AssistantCalls content tool_calls) ;;;
          metadata' <- run_tool_calls env session_id tool_calls metadata ;;
          agent_loop env n' session_id metadata'
      | [] =>
          let reply := match content with
                       | Some c => c
                       | None => EmptyString
                       end in
          append session_id (Assistant reply) ;;;
          ret {| sessionId := session_id; reply := reply; metadata := metadata |}
      end
  end.

(** [process_message(session_id, user_message)] *)
Definition process_message (env : Env) (session_id : option string)
    (user_message : string) : M Reply :=
  sh <- get_or_create_session env session_id ;;
  let session_id := fst sh in
  append session_id (User user_message) ;;;
  agent_loop env max_iterations session_id ∅.

End Agent.

(** [str(e)] for an exception. *)
Definition exn_str (e : Exn) : string :=
  match e with
  | APIError detail => detail
  | JSONDecodeError detail => detail
  | KeyError key => "'" +:+ key +:+ "'"
  | AttributeError detail => detail
  | TypeError detail => detail
  end.

(** ** server/main.py *)

Module Main.

Import DateTime.

(** A pydantic field validator returns the value to store ([inr]) or
    raises [ValueError(message)] ([inl]). *)
Abbreviation checked := (string + string)%type.

Definition valid_states : gset string :=
  list_to_set
    ["AL";"AK";"AZ";"AR";"CA";"CO";"CT";"DE";"FL";"GA";
     "HI";"ID";"IL";"IN";"IA";"KS";"KY";"LA";"ME";"MD";
     "MA";"MI";"MN";"MS";"MO";"MT";"NE";"NV";"NH";"NJ";
     "NM";"NY";"NC";"ND";"OH";"OK";"OR";"PA";"RI";"SC";
     "SD";"TN";"TX";"UT";"VT";"VA";"WA";"WV";"WI";"WY";"DC"].

(** The validators of [Address]. *)

Definition validate_street (v : string) : checked :=
  let v := PyStr.strip v in
  if (PyStr.len v <? 5)%nat || (100 <? PyStr.len v)%nat
  then inl "Street address must be 5–100 characters."
  else inr v.

Definition validate_city (v : string) : checked :=
  let v := PyStr.strip v in
  if negb (Re.match_ Re.NAME v) then inl "City can only contain letters and spaces."
  else inr v.

Definition validate_state (v : string) : checked :=
  let v := PyStr.upper (PyStr.strip v) in
  if negb (bool_decide (v ∈ valid_states))
  then inl "Please provide a valid 2-letter US state code."
  else inr v.

Definition validate_zip (v : string) : checked :=
  let v := PyStr.strip v in
  if negb (Re.match_ Re.ZIP v) then inl "ZIP code must be exactly 5 digits."
  else inr v.

(** The validators of [AccountRequest]. *)

Definition validate_first_name (v : string) : checked :=
  let v := PyStr.strip v in
  if (PyStr.len v <? 2)%nat || (50 <? PyStr.len v)%nat
  then inl "First name must be 2–50 characters."
  else if negb (Re.match_ Re.NAME v)
  then inl "First name can only contain letters, spaces, hyphens, and apostrophes."
  else inr v.

Definition validate_last_name (v : string) : checked :=
  let v := PyStr.strip v in
  if (PyStr.len v <? 2)%nat || (50 <? PyStr.len v)%nat
  then inl "Last name must be 2–50 characters."
  else if negb (Re.match_ Re.NAME v)
  then inl "Last name can only contain letters, spaces, hyphens, and apostrophes."
  else inr v.

Definition validate_email (v : string) : checked :=
  let v := PyStr.strip v in
  if negb (Re.match_ Re.EMAIL v) then inl "Please provide a valid email address."
  else inr v.

Definition validate_phone (v : string) : checked :=
  let digits := Re.sub_nondigits v in
  if negb (PyStr.len digits =? 10)%nat then inl "Phone number must be exactly 10 digits."
  else inr digits.

Definition check_age (today dob : date) (v : string) : checked :=
  let age := age today dob in
  if (age <? 18)%Z then inl "You must be at least 18 years old to open an account."
  else if (120 <? age)%Z then inl "Please provide a valid date of birth."
  else inr v.

Definition validate_dob (today : date) (v : string) : checked :=
  let v := PyStr.strip v in
  if Re.match_ Re.DATE_MDY v then
    match strptime_mdY v with
    | None => inl "Please provide a valid date (MM/DD/YYYY)."
    | Some dob => check_age today dob v
    end
  else if Re.match_ Re.DATE_YMD v then
    match strptime_Ymd v with
    | None => inl "Please provide a valid date (YYYY-MM-DD)."
    | Some dob => check_age today dob v
    end
  else inl "Date of birth must be in MM/DD/YYYY or YYYY-MM-DD format.".

Definition validate_ssn (v : string) : checked :=
  let digits := Re.sub_nondigits v in
  if negb (PyStr.len digits =? 9)%nat then inl "SSN must be exactly 9 digits."
  else if PyStr.startswith digits "000" || PyStr.startswith digits "666"
          || PyStr.startswith digits "9"
  then inl "Please provide a valid SSN."
  else inr digits.

Definition validate_agreed (v : bool) : string + bool :=
  if negb v then inl "You must agree to the Terms & Conditions to open an account."
  else inr v.

(** The validator that [@field_validator] registers for each of the ten
    fields. *)
Definition field_validators (today : date) : list (string * (string -> checked)) :=
  [ ("firstName", validate_first_name); ("lastName", validate_last_name);
    ("email", validate_email); ("phone", validate_phone);
    ("dateOfBirth", validate_dob today); ("ssn", validate_ssn);
    ("street", validate_street); ("city", validate_city);
    ("state", validate_state); ("zip", validate_zip) ].

(** The two models.  A record holds the fields as the request body sends
    them before validation and as the validators returned them after. *)
Record Address := { street : string; city : string; state : string; zip : string }.

Record AccountRequest := {
  firstName : string;
  lastName : string;
  email : string;
  phone : string;
  dateOfBirth : string;
  ssn : string;
  address : Address;
  agreedToTerms : bool
}.

(** One entry of the error list of a pydantic ValidationError, as FastAPI
    returns it in the detail of a 422 response. *)
Record ErrorDetail := { loc : list string; msg : string }.

(** pydantic runs the validators field by field in declaration order, a
    nested model in the place of its field, and collects every error; the
    model is built only when there is none. *)
Definition errors_of {A} (loc : list string) (r : string + A) : list ErrorDetail :=
  match r with
  | inl m => [ {| loc := loc; msg := "Value error, " +:+ m |} ]
  | inr _ => []
  end.

Definition value_of {A} (raw : A) (r : string + A) : A :=
  match r with
  | inl _ => raw
  | inr v => v
  end.

Definition Address_errors (prefix : list string) (a : Address) : list ErrorDetail :=
  (errors_of (prefix ++ ["street"]) (validate_street (street a)) ++
   errors_of (prefix ++ ["city"]) (validate_city (city a)) ++
   errors_of (prefix ++ ["state"]) (validate_state (state a)) ++
   errors_of (prefix ++ ["zip"]) (validate_zip (zip a)))%list.

Definition Address_cleaned (a : Address) : Address :=
  {| street := value_of (street a) (validate_street (street a));
     city := value_of (city a) (validate_city (city a));
     state := value_of (state a) (validate_state (state a));
     zip := value_of (zip a) (validate_zip (zip a)) |}.

Definition AccountRequest_errors (today : date) (r : AccountRequest) : list ErrorDetail :=
  (errors_of ["body"; "firstName"] (validate_first_name (firstName r)) ++
   errors_of ["body"; "lastName"] (validate_last_name (lastName r)) ++
   errors_of ["body"; "email"] (validate_email (email r)) ++
   errors_of ["body"; "phone"] (validate_phone (phone r)) ++
   errors_of ["body"; "dateOfBirth"] (validate_dob today (dateOfBirth r)) ++
   errors_of ["body"; "ssn"] (validate_ssn (ssn r)) ++
   Address_errors ["body"; "address"] (address r) ++
   errors_of ["body"; "agreedToTerms"] (validate_agreed (agreedToTerms r)))%list.

Definition AccountRequest_cleaned (today : date) (r : AccountRequest) : AccountRequest :=
  {| firstName := value_of (firstName r) (validate_first_name (firstName r));
     lastName := value_of (lastName r) (validate_last_name (lastName r));
     email := value_of (email r) (validate_email (email r));
     phone := value_of (phone r) (validate_phone (phone r));
     dateOfBirth := value_of (dateOfBirth r) (validate_dob today (dateOfBirth r));
     ssn := value_of (ssn r) (validate_ssn (ssn r));
     address := Address_cleaned (address r);
     agreedToTerms := value_of (agreedToTerms r) (validate_agreed (agreedToTerms r)) |}.

(** Parsing the request body into [AccountRequest]. *)
Definition AccountRequest_validate (today : date) (body : AccountRequest)
    : list ErrorDetail + AccountRequest :=
  match AccountRequest_errors today body with
  | [] => inr (AccountRequest_cleaned today body)
  | errors => inl errors
  end.

Record AccountResponse := {
  accountNumber : string;
  routingNumber : string;
  accountType : string;
  message : string;
  customerName : string
}.

Record ChatRequest := { req_message : string; req_sessionId : option string }.

Record ChatResponse := {
  resp_sessionId : string;
  resp_reply : string;
  resp_metadata : dict
}.

(** What an endpoint answers: 200 with a body, 422 with the validation
    errors (the handler is not called), or the HTTPException it raised. *)
Inductive Response (A : Type) :=
| Ok200 (body : A)
| Unprocessable422 (detail : list ErrorDetail)
| HTTPException (status_code : nat) (detail : string).
Arguments Ok200 {A} body.
Arguments Unprocessable422 {A} detail.
Arguments HTTPException {A} status_code detail.

(** [POST /api/chat] *)
Definition chat (env : Agent.Env) (request : ChatRequest)
    : Agent.World -> Response ChatResponse * Agent.World :=
  fun w =>
    match Agent.process_message env (req_sessionId request) (req_message request) w with
    | (inr result, w') =>
        (Ok200 {| resp_sessionId := Agent.sessionId result;
                  resp_reply := Agent.reply result;
                  resp_metadata := Agent.metadata result |}, w')
    | (inl e, w') => (HTTPException 500 ("Agent error: " +:+ exn_str e), w')
    end.

(** [POST /api/accounts] *)
Definition create_account (env : Agent.Env) (body : AccountRequest)
    : Agent.World -> Response AccountResponse * Agent.World :=
  fun w =>
    match AccountRequest_validate (Agent.today env) body with
    | inl errors => (Unprocessable422 errors, w)
    | inr request =>
        match Agent.random_digits env 10 w with
        | (inr account_number, w1) =>
            match Agent.random_digits env 9 w1 with
            | (inr routing_number, w2) =>
                (Ok200 {| accountNumber := account_number;
                          routingNumber := routing_number;
                          accountType := "Checking";
                          message := "Account created successfully!";
                          customerName := firstName request +:+ " " +:+ lastName request |},
                 w2)
            | (inl e, w2) => (HTTPException 500 "Internal Server Error", w2)
            end
        | (inl e, w1) => (HTTPException 500 "Internal Server Error", w1)
        end
    end.

End Main.

(** * The vocabulary of the properties

    The predicates and functions in which the theorems below are stated,
    and the inputs of the worked examples. *)

Section Vocabulary.

Import Agent DateTime.

(** The validity flag and the cleaned value a result dictionary carries. *)
Definition is_valid (r : dict) : bool :=
  match r !! "valid" with
  | Some (PyBool b) => b
  | _ => false
  end.

Definition cleaned_value (r : dict) : option string :=
  match r !! "cleaned_value" with
  | Some (PyStr c) => Some c
  | _ => None
  end.

(** A well-formed result: a boolean under [valid], a string under
    [message], a string under [cleaned_value] exactly when valid, and no
    other key. *)
Definition well_formed (r : dict) : Prop :=
  exists (valid : bool) (message : string),
    r !! "valid" = Some (PyBool valid) /\
    r !! "message" = Some (PyStr message) /\
    (if valid then exists c, r !! "cleaned_value" = Some (PyStr c)
     else r !! "cleaned_value" = None) /\
    dom r ⊆ ({["valid"; "message"; "cleaned_value"]} : gset string).

(** What a path decides: the cleaned value when it accepts, nothing when it
    rejects. *)
Definition outcome (r : dict) : option string :=
  if is_valid r then cleaned_value r else None.

Definition checked_outcome (r : Main.checked) : option string :=
  match r with
  | inl _ => None
  | inr v => Some v
  end.


Definition digits (cs : list ascii) : Prop :=
  Forall (fun c => PyStr.isdigit c = true) cs.




(** A string of [n] decimal digits. *)
Definition digit_string (n : nat) (s : string) : Prop :=
  PyStr.len s = n /\ Forall (fun c => PyStr.isdigit c = true) (list_ascii_of_string s).




(** Between two states the transcript stored under [sid] grew by [suffix]
    at its end and no other transcript changed. *)
Definition appended (sid : string) (suffix : list Turn) (w w' : World) : Prop :=
  sessions w' = alter (fun h => (h ++ suffix)%list) sid (sessions w).

(** Between two states nothing changed but the count of random draws. *)
Definition quiet (w w' : World) : Prop :=
  sessions w' = sessions w /\ requests w' = requests w /\ uuid_drawn w' = uuid_drawn w.

Definition not_api_error (e : Exn) : Prop :=
  match e with
  | APIError _ => False
  | _ => True
  end.


(** The tool turns that answer a list of invocations, in their order. *)
Definition answers (tool_calls : list ToolCall) (results : list Turn) : Prop :=
  Forall2 (fun tc t => exists content, t = Tool (tc_id tc) content) tool_calls results.

Definition demo_uuid (k : nat) : string := "uuid-" +:+ pretty k.

Definition empty_world : World :=
  {| sessions := ∅; uuid_drawn := 0; rand_drawn := 0; requests := [] |}.

(** A process that already holds the session [s1]. *)
Definition demo_world : World :=
  {| sessions := {[ "s1" := [System SYSTEM_PROMPT] ]};
     uuid_drawn := 0; rand_drawn := 0; requests := [] |}.

Definition call_validate : ToolCall :=
  {| tc_id := "call_1"; tc_name := "validate_field";
     tc_arguments :=
       IsJSON (JObject {[ "field_name" := PyStr "zip"; "value" := PyStr "12345" ]}) |}.

Definition call_agreement : ToolCall :=
  {| tc_id := "call_2"; tc_name := "show_agreement"; tc_arguments := IsJSON (JObject ∅) |}.

Definition call_create : ToolCall :=
  {| tc_id := "call_3"; tc_name := "create_account";
     tc_arguments :=
       IsJSON (JObject {[ "firstName" := PyStr "Ada"; "lastName" := PyStr "Byron" ]}) |}.


(** The service asks for the three tools in one message, then replies. *)
Definition demo_env : Env :=
  {| today := DateTime.Date 2025 6 1;
     completion := fun k =>
       match k with
       | O => Message None [call_validate; call_agreement; call_create]
       | _ => Message (Some "All set.") []
       end;
     uuid4 := demo_uuid;
     rand := fun k => k |}.


(** The service is unreachable. *)
Definition failing_env : Env :=
  {| today := DateTime.Date 2025 6 1;
     completion := fun _ => Raises "Connection error.";
     uuid4 := demo_uuid;
     rand := fun k => k |}.

(** The service keeps asking for a tool: [call] in every message. *)
Definition looping_env (call : ToolCall) : Env :=
  {| today := DateTime.Date 2025 6 1;
     completion := fun _ => Message None [call];
     uuid4 := demo_uuid;
     rand := fun k => k |}.

(** The identifier [get_or_create_session] works with. *)
Definition resolved (env : Env) (session_id : option string) (w : World) : string :=
  match session_id with
  | Some s => if PyStr.is_empty s then uuid4 env (uuid_drawn w) else s
  | None => uuid4 env (uuid_drawn w)
  end.

(** The state once the transcript has been sent to the completion
    service, and once a turn has been appended. *)
Definition sent (sid : string) (w : World) : World :=
  {| sessions := sessions w; uuid_drawn := uuid_drawn w; rand_drawn := rand_drawn w;
     requests := (requests w ++ [history sid w])%list |}.

Definition with_turn (sid : string) (turn : Turn) (w : World) : World :=
  set_sessions (alter (fun h => (h ++ [turn])%list) sid) w.

Definition reply_of (content : option string) : string :=
  match content with
  | Some c => c
  | None => EmptyString
  end.

(** The requests of one client: the messages [msgs], sent one after the
    other with the same session identifier. *)
Fixpoint chat_calls (env : Env) (sid : string) (msgs : list string) (w : World) : World :=
  match msgs with
  | [] => w
  | m :: rest => chat_calls env sid rest (snd (process_message env (Some sid) m w))
  end.

(** A computation returned rather than raised. *)
Definition returned {A} (r : Exn + A) : bool :=
  match r with
  | inl _ => false
  | inr _ => true
  end.

(** The state of the worked example when the service is first called. *)
Definition greeted_world : World := with_turn "s1" (User "Hi") demo_world.


Definition is_create (tc : ToolCall) : bool := String.eqb (tc_name tc) "create_account".





(** Every character of the string is in the class. *)
Fixpoint all_chars (p : ascii -> bool) (s : string) : bool :=
  match s with
  | EmptyString => true
  | String c s' => p c && all_chars p s'
  end.


(** The [n]-th birthday of [dob] is today or earlier. *)
Definition birthday_reached (n : Z) (today dob : date) : Prop :=
  (year dob + n < year today \/
   (year dob + n = year today /\
    (month dob < month today \/ (month dob = month today /\ day dob <= day today))))%Z.




(** The dictionary [execute_tool] returns for a name it does not know. *)
Definition unknown_tool (name : string) : dict :=
  {[ "error" := PyStr ("Unknown tool: " +:+ name) ]}.

(** The transcript a call of [process_message] starts from: the stored one
    when the caller names a session the store holds, the system prompt
    alone otherwise. *)
Definition opening (env : Env) (session_id : option string) (w : World) : list Turn :=
  if absent session_id then [System SYSTEM_PROMPT]
  else match sessions w !! resolved env session_id w with
       | Some transcript => transcript
       | None => [System SYSTEM_PROMPT]
       end.

(** What the loop appends when it returns [reply]: rounds of an assistant
    turn carrying invocations and one tool turn for each of them, in their
    order, closed by one assistant turn with the reply. *)
Inductive rounds : list Turn -> string -> Prop :=
| rounds_reply reply : rounds [Assistant reply] reply
| rounds_tools content tool_calls results rest reply :
    tool_calls <> [] ->
    answers tool_calls results ->
    rounds rest reply ->
    rounds (AssistantCalls content tool_calls :: results ++ rest) reply.


End Vocabulary.

(** * Properties *)

(** ** The result dictionaries *)

Section Results.

Import Agent.

Lemma reject_well_formed m : well_formed (reject m).
Proof.
  exists false, m. split; [exact eq_refl|]. split; [exact eq_refl|].
  split; [exact eq_refl|]. unfold reject. set_solver.
Qed.

Lemma accept_well_formed c : well_formed (accept c).
Proof.
  exists true, "Valid". split; [exact eq_refl|]. split; [exact eq_refl|].
  split; [now exists c|]. unfold accept. set_solver.
Qed.

Lemma is_valid_reject m : is_valid (reject m) = false.
Proof. reflexivity. Qed.

Lemma is_valid_accept c : is_valid (accept c) = true.
Proof. reflexivity. Qed.

Lemma cleaned_reject m : cleaned_value (reject m) = None.
Proof. reflexivity. Qed.

Lemma cleaned_accept c : cleaned_value (accept c) = Some c.
Proof. reflexivity. Qed.

Lemma accept_inj c c' : accept c = accept c' -> c = c'.
Proof.
  intros H. apply (f_equal cleaned_value) in H.
  rewrite !cleaned_accept in H. congruence.
Qed.

Lemma reject_not_accept m c : reject m <> accept c.
Proof.
  intros H. apply (f_equal is_valid) in H.
  rewrite is_valid_reject, is_valid_accept in H. discriminate.
Qed.

Lemma check_age_shape today dob v :
  (exists m, check_age today dob v = reject m) \/ check_age today dob v = accept v.
Proof.
  unfold check_age.
  destruct (_ <? 18)%Z; [left; eauto|].
  destruct (120 <? _)%Z; [left; eauto|now right].
Qed.

(** Every path of [validate_field] ends in one of the two shapes. *)
Lemma validate_field_shape today field_name value :
  (exists m, validate_field today field_name value = reject m) \/
  (exists c, validate_field today field_name value = accept c).
Proof.
  unfold validate_field.
  repeat match goal with
  | |- context [check_age ?t ?d ?v] =>
      destruct (check_age_shape t d v) as [[? ->] | ->]
  | |- (exists m, reject _ = reject m) \/ _ => left; eexists; reflexivity
  | |- _ \/ (exists c, accept _ = accept c) => right; eexists; reflexivity
  | |- context [if ?b then _ else _] => destruct b
  | |- context [match ?o with Some _ => _ | None => _ end] => destruct o
  end.
Qed.

End Results.

(** ** Field validation *)

Section Validation.

Import Agent.

(** C3. [validate_field] returns for every field name and every value, with
    no exception left uncaught, a well-formed result dictionary: [valid],
    [message], and [cleaned_value] exactly when valid.  A name outside the
    ten fields gives [valid = False] with the message [Unknown field: name],
    and an empty or whitespace-only value is rejected whatever the field. *)
Theorem validate_field_total (today : DateTime.date) (field_name value : string) :
  well_formed (validate_field today field_name value) /\
  (~ In field_name FIELD_NAMES ->
     validate_field today field_name value = reject ("Unknown field: " +:+ field_name)) /\
  (PyStr.strip value = "" ->
     is_valid (validate_field today field_name value) = false).
Proof.
  split; [|split].
  - destruct (validate_field_shape today field_name value) as [[m ->] | [c ->]].
    + apply reject_well_formed.
    + apply accept_well_formed.
  - intros Hnot. unfold validate_field.
    repeat match goal with
    | |- context [String.eqb field_name ?s] =>
        let E := fresh "E" in
        destruct (String.eqb field_name s) eqn:E;
        [ apply String.eqb_eq in E; exfalso; apply Hnot; rewrite E; simpl; tauto | ]
    end.
    reflexivity.
  - intros Hs. unfold validate_field. rewrite Hs.
    repeat match goal with
    | |- context [String.eqb field_name ?s] => destruct (String.eqb field_name s)
    end; vm_compute; reflexivity.
Qed.

End Validation.

(** ** The two validation paths *)

Section TwoPaths.

Import Agent.

Lemma outcome_reject m : outcome (reject m) = None.
Proof. reflexivity. Qed.

Lemma outcome_accept c : outcome (accept c) = Some c.
Proof. reflexivity. Qed.

Lemma space_not_digit c : PyStr.isspace c = true -> PyStr.isdigit c = false.
Proof.
  unfold PyStr.isspace, PyStr.isdigit, PyStr.between.
  rewrite !orb_true_iff, !andb_true_iff, !Nat.leb_le, !Nat.eqb_eq.
  intros H. apply andb_false_iff. rewrite !Nat.leb_gt. lia.
Qed.

Lemma filter_digits_lstrip s :
  PyStr.filter PyStr.isdigit (PyStr.lstrip s) = PyStr.filter PyStr.isdigit s.
Proof.
  induction s as [|c s IH]; [reflexivity|]. simpl.
  destruct (PyStr.isspace c) eqn:E; [|reflexivity].
  now rewrite (space_not_digit c E).
Qed.

Lemma filter_digits_rstrip s :
  PyStr.filter PyStr.isdigit (PyStr.rstrip s) = PyStr.filter PyStr.isdigit s.
Proof.
  induction s as [|c s IH]; [reflexivity|]. simpl.
  destruct (PyStr.rstrip s) as [|c' r] eqn:R.
  - destruct (PyStr.isspace c) eqn:E.
    + rewrite (space_not_digit c E). now rewrite <- IH.
    + simpl. now rewrite <- IH.
  - change (PyStr.filter PyStr.isdigit (String c (String c' r))) with
      (if PyStr.isdigit c then String c (PyStr.filter PyStr.isdigit (String c' r))
       else PyStr.filter PyStr.isdigit (String c' r)).
    now rewrite IH.
Qed.

(** Stripping first does not change the digits [re.sub] keeps. *)
Lemma sub_nondigits_strip s : Re.sub_nondigits (PyStr.strip s) = Re.sub_nondigits s.
Proof.
  unfold Re.sub_nondigits, PyStr.strip.
  now rewrite filter_digits_rstrip, filter_digits_lstrip.
Qed.

Ltac by_cases :=
  repeat match goal with
  | |- context [if ?b then _ else _] => destruct b
  | |- context [match ?o with Some _ => _ | None => _ end] => destruct o
  end; reflexivity.

Ltac on_stripped v :=
  unfold validate_field;
  cbn [String.eqb Ascii.eqb Bool.eqb orb];
  destruct (PyStr.strip v); [vm_compute; reflexivity | cbn [PyStr.is_empty]; by_cases].

Lemma agree_first_name today v :
  checked_outcome (Main.validate_first_name v) = outcome (validate_field today "firstName" v).
Proof. unfold Main.validate_first_name. on_stripped v. Qed.

Lemma agree_last_name today v :
  checked_outcome (Main.validate_last_name v) = outcome (validate_field today "lastName" v).
Proof. unfold Main.validate_last_name. on_stripped v. Qed.

Lemma agree_email today v :
  checked_outcome (Main.validate_email v) = outcome (validate_field today "email" v).
Proof. unfold Main.validate_email. on_stripped v. Qed.

Lemma agree_phone today v :
  checked_outcome (Main.validate_phone v) = outcome (validate_field today "phone" v).
Proof.
  unfold Main.validate_phone, validate_field.
  cbn [String.eqb Ascii.eqb Bool.eqb orb].
  rewrite sub_nondigits_strip. by_cases.
Qed.

Lemma agree_check_age today dob v :
  checked_outcome (Main.check_age today dob v) = outcome (check_age today dob v).
Proof. unfold Main.check_age, check_age. by_cases. Qed.

Lemma agree_dob today v :
  checked_outcome (Main.validate_dob today v) = outcome (validate_field today "dateOfBirth" v).
Proof.
  unfold Main.validate_dob, validate_field.
  cbn [String.eqb Ascii.eqb Bool.eqb orb].
  destruct (PyStr.strip v) as [|c s]; [vm_compute; reflexivity|].
  cbn [PyStr.is_empty].
  repeat match goal with
  | |- context [if ?b then _ else _] => destruct b
  | |- context [match ?o with Some _ => _ | None => _ end] => destruct o
  end; try reflexivity; apply agree_check_age.
Qed.

Lemma agree_ssn today v :
  checked_outcome (Main.validate_ssn v) = outcome (validate_field today "ssn" v).
Proof.
  unfold Main.validate_ssn, validate_field.
  cbn [String.eqb Ascii.eqb Bool.eqb orb].
  rewrite sub_nondigits_strip. by_cases.
Qed.

Lemma agree_street today v :
  checked_outcome (Main.validate_street v) = outcome (validate_field today "street" v).
Proof.
  unfold Main.validate_street, validate_field.
  cbn [String.eqb Ascii.eqb Bool.eqb orb]. by_cases.
Qed.

Lemma agree_city today v :
  checked_outcome (Main.validate_city v) = outcome (validate_field today "city" v).
Proof.
  unfold Main.validate_city, validate_field.
  cbn [String.eqb Ascii.eqb Bool.eqb orb]. by_cases.
Qed.

Lemma agree_state today v :
  checked_outcome (Main.validate_state v) = outcome (validate_field today "state" v).
Proof.
  unfold Main.validate_state, validate_field.
  cbn [String.eqb Ascii.eqb Bool.eqb orb].
  change Main.valid_states with VALID_STATES. by_cases.
Qed.

Lemma agree_zip today v :
  checked_outcome (Main.validate_zip v) = outcome (validate_field today "zip" v).
Proof.
  unfold Main.validate_zip, validate_field.
  cbn [String.eqb Ascii.eqb Bool.eqb orb]. by_cases.
Qed.

(** C4. For each of the ten fields and every input, the validator of the
    direct account-creation path and [validate_field] of the dialogue path
    decide alike: both reject, or both accept with the same cleaned value. *)
Theorem validation_paths_agree (today : DateTime.date) (name value : string)
    (check : string -> Main.checked) :
  In (name, check) (Main.field_validators today) ->
  checked_outcome (check value) = outcome (validate_field today name value).
Proof.
  unfold Main.field_validators. simpl.
  intros H.
  repeat (destruct H as [H | H]; [inversion H; subst; clear H | ]);
    [ apply agree_first_name | apply agree_last_name | apply agree_email
    | apply agree_phone | apply agree_dob | apply agree_ssn | apply agree_street
    | apply agree_city | apply agree_state | apply agree_zip | contradiction ].
Qed.

(** C4 at the state field with the value [ ca ]: both paths accept and clean
    it to [CA]. *)
Lemma validation_paths_agree_witness :
  checked_outcome (Main.validate_state " ca ") = Some "CA" /\
  checked_outcome (Main.validate_state " ca ")
    = outcome (validate_field (DateTime.Date 2025 6 1) "state" " ca ").
Proof.
  split; [vm_compute; reflexivity|].
  apply (validation_paths_agree (DateTime.Date 2025 6 1) "state" " ca " Main.validate_state).
  simpl. tauto.
Defined.

End TwoPaths.

(** ** Regular expressions on stripped strings *)

Section Regex.






End Regex.

(** ** Dates of birth *)

Section DateOfBirth.

Import Agent DateTime.








Section Shapes.

Variables m1 m2 d1 d2 y1 y2 y3 y4 : ascii.
Hypothesis Hd : digits [m1; m2; d1; d2; y1; y2; y3; y4].







End Shapes.


Lemma check_age_valid today dob v :
  is_valid (check_age today dob v) = true <-> (18 <= age today dob <= 120)%Z.
Proof.
  unfold check_age.
  destruct (age today dob <? 18)%Z eqn:A; [rewrite is_valid_reject; lia|].
  destruct (120 <? age today dob)%Z eqn:B; [rewrite is_valid_reject; lia|].
  rewrite is_valid_accept. lia.
Qed.



End DateOfBirth.

Section DateOfBirthRule.

Import Agent DateTime.




End DateOfBirthRule.

(** ** Account numbers *)

Section Digits.

Import Agent.

Lemma digit_char_isdigit i : PyStr.isdigit (digit_char i) = true.
Proof.
  unfold PyStr.isdigit, PyStr.between, PyStr.code, digit_char.
  assert (i mod 10 < 10)%nat by (apply Nat.mod_upper_bound; lia).
  rewrite nat_ascii_embedding by lia.
  apply andb_true_iff. rewrite !Nat.leb_le. lia.
Qed.

Lemma digit_string_of_list (l : list nat) (f : nat -> nat) :
  digit_string (length l) (string_of_list_ascii (map (fun i => digit_char (f i)) l)).
Proof.
  unfold digit_string, PyStr.len. induction l as [|x l [IH1 IH2]]; simpl.
  - split; [reflexivity | constructor].
  - split; [now rewrite IH1 | constructor; [apply digit_char_isdigit | exact IH2]].
Qed.

(** [random_digits] never raises, returns [k] digits and consumes [k]
    draws. *)
Lemma random_digits_spec env k w :
  exists s,
    random_digits env k w =
      (inr s, {| sessions := sessions w; uuid_drawn := uuid_drawn w;
                 rand_drawn := rand_drawn w + k; requests := requests w |}) /\
    digit_string k s.
Proof.
  eexists. split; [reflexivity|].
  pose proof (digit_string_of_list (seq 0 k) (fun i => rand env (rand_drawn w + i))) as H.
  rewrite length_seq in H. exact H.
Qed.

End Digits.

(** ** The direct account-creation endpoint *)

Section DirectCreation.

Import Agent.






End DirectCreation.

(** ** The session store and the agent loop *)

Section Loop.

Import Agent.

Lemma appended_nil sid w w' : sessions w' = sessions w -> appended sid [] w w'.
Proof.
  intros E. unfold appended. rewrite E. apply map_eq. intros k.
  destruct (decide (sid = k)) as [<- | N]; [|now rewrite lookup_alter_ne].
  rewrite lookup_alter_eq.
  destruct (sessions w !! sid); simpl; [rewrite app_nil_r|]; reflexivity.
Qed.

Lemma appended_trans sid a b w1 w2 w3 :
  appended sid a w1 w2 -> appended sid b w2 w3 -> appended sid (a ++ b) w1 w3.
Proof.
  unfold appended. intros E1 E2. rewrite E2, E1. apply map_eq. intros k.
  destruct (decide (sid = k)) as [<- | N]; [|now rewrite !lookup_alter_ne].
  rewrite !lookup_alter_eq.
  destruct (sessions w1 !! sid); simpl; [rewrite app_assoc|]; reflexivity.
Qed.

Lemma appended_lookup sid suffix w w' k T :
  appended sid suffix w w' -> sessions w !! k = Some T ->
  exists more, sessions w' !! k = Some (T ++ more)%list.
Proof.
  unfold appended. intros E H. rewrite E.
  destruct (decide (sid = k)) as [<- | N].
  - rewrite lookup_alter_eq, H. now exists suffix.
  - rewrite lookup_alter_ne, H by exact N. exists []. now rewrite app_nil_r.
Qed.

Lemma appended_history sid suffix w w' :
  appended sid suffix w w' -> is_Some (sessions w !! sid) ->
  history sid w' = (history sid w ++ suffix)%list /\ is_Some (sessions w' !! sid).
Proof.
  unfold appended, history. intros E [T H]. rewrite E, lookup_alter_eq, H.
  simpl. eauto.
Qed.

Lemma json_item_not_api j k e : json_item j k = inl e -> not_api_error e.
Proof.
  unfold json_item, dict_item. destruct j; try (intros [= <-]; exact I).
  destruct (d !! k); [discriminate | intros [= <-]; exact I].
Qed.

Lemma json_get_not_api j k x e : json_get j k x = inl e -> not_api_error e.
Proof. unfold json_get. destruct j; try discriminate; intros [= <-]; exact I. Qed.

Lemma create_account_quiet env data w r w' :
  create_account env data w = (r, w') ->
  quiet w w' /\ match r with inl e => not_api_error e | inr _ => True end.
Proof.
  unfold create_account, bind, random_digits, lift, ret.
  destruct (json_get data "firstName" (PyStr "")) eqn:E1.
  - intros [= <- <-]. split; [repeat split | eapply json_get_not_api; eauto].
  - destruct (json_get data "lastName" (PyStr "")) eqn:E2.
    + intros [= <- <-]. split; [repeat split | eapply json_get_not_api; eauto].
    + intros [= <- <-]. split; [repeat split | exact I].
Qed.

Lemma execute_tool_quiet env name args w r w' :
  execute_tool env name args w = (r, w') ->
  quiet w w' /\ match r with inl e => not_api_error e | inr _ => True end.
Proof.
  unfold execute_tool.
  destruct (String.eqb name "validate_field").
  - unfold bind, lift.
    destruct (json_item args "field_name") eqn:E1.
    { intros [= <- <-]. split; [repeat split | eapply json_item_not_api; eauto]. }
    destruct (json_item args "value") eqn:E2.
    { intros [= <- <-]. split; [repeat split | eapply json_item_not_api; eauto]. }
    intros [= <- <-]. split; [repeat split|].
    unfold call_validate_field. destruct p0; exact I.
  - destruct (String.eqb name "show_agreement").
    { intros [= <- <-]. split; [repeat split | exact I]. }
    destruct (String.eqb name "create_account").
    + apply create_account_quiet.
    + intros [= <- <-]. split; [repeat split | exact I].
Qed.

Lemma capture_account_not_api name result md e :
  capture_account name result md = inl e -> not_api_error e.
Proof.
  unfold capture_account, dict_item.
  repeat match goal with
  | |- context [if ?b then _ else _] => destruct b
  | |- context [match ?o with Some _ => _ | None => _ end] => destruct o
  end; try discriminate; intros [= <-]; exact I.
Qed.

(** One invocation: either its result turn is appended, or it raises
    and appends nothing; in both cases no completion is requested. *)
Lemma run_tool_call_spec env sid tc md w r w' :
  run_tool_call env sid tc md w = (r, w') ->
  requests w' = requests w /\ uuid_drawn w' = uuid_drawn w /\
  match r with
  | inr _ => exists content, appended sid [Tool (tc_id tc) content] w w'
  | inl e => sessions w' = sessions w /\ not_api_error e
  end.
Proof.
  unfold run_tool_call, bind, lift, ret, json_loads.
  destruct (tc_arguments tc) as [text | j].
  { intros [= <- <-]. repeat split. }
  destruct (execute_tool env (tc_name tc) j w) as [[e | result] w1] eqn:X;
    apply execute_tool_quiet in X; destruct X as [(Q1 & Q2 & Q3) N].
  { intros [= <- <-]. repeat split; assumption. }
  destruct (capture_account (tc_name tc) result md) as [e | md'] eqn:C.
  { intros [= <- <-]. repeat split; try assumption.
    eapply capture_account_not_api; eauto. }
  intros [= <- <-]. simpl. repeat split; try assumption.
  exists result. unfold appended. simpl. now rewrite Q1.
Qed.

Lemma run_tool_calls_spec env sid tcs : forall md w r w',
  run_tool_calls env sid tcs md w = (r, w') ->
  requests w' = requests w /\ uuid_drawn w' = uuid_drawn w /\
  exists results,
    appended sid results w w' /\
    match r with
    | inr _ => answers tcs results
    | inl e => not_api_error e /\ length results < length tcs /\
               answers (take (length results) tcs) results
    end.
Proof.
  induction tcs as [|tc tcs IH]; intros md w r w'; simpl.
  - intros [= <- <-]. repeat split. exists []. split; [now apply appended_nil | constructor].
  - unfold bind.
    destruct (run_tool_call env sid tc md w) as [[e | md1] w1] eqn:X;
      apply run_tool_call_spec in X; destruct X as (R1 & U1 & X).
    + intros [= <- <-]. destruct X as [S1 N]. repeat split; try assumption.
      exists []. split; [now apply appended_nil|].
      split; [exact N|]. split; [simpl; lia | constructor].
    + destruct X as [content A1]. intros H. apply IH in H.
      destruct H as (R2 & U2 & results & A2 & H).
      split; [congruence|]. split; [congruence|].
      exists (Tool (tc_id tc) content :: results).
      split; [exact (appended_trans _ _ _ _ _ _ A1 A2)|].
      destruct r as [e | md2].
      * destruct H as (N & L & F). split; [exact N|]. split; [simpl; lia|].
        simpl. constructor; [eauto | exact F].
      * constructor; [eauto | exact H].
Qed.


(** *** The create_account tool *)

(** [create_account] on an argument object: two draws of digits and a
    dictionary built from them and the two names. *)
Lemma create_account_object env data w :
  exists account_number routing_number w',
    create_account env (JObject data) w =
      (inr ({[ "success" := PyBool true;
               "accountNumber" := PyStr account_number;
               "routingNumber" := PyStr routing_number;
               "accountType" := PyStr "Checking";
               "customerName" :=
                 PyStr (py_str (dict_get data "firstName" (PyStr "")) +:+ " " +:+
                        py_str (dict_get data "lastName" (PyStr "")));
               "message" := PyStr "Account created successfully!" ]} : dict), w') /\
    digit_string 10 account_number /\ digit_string 9 routing_number /\
    rand_drawn w' = rand_drawn w + 19.
Proof.
  destruct (random_digits_spec env 10 w) as (acct & E1 & D1).
  match type of E1 with _ = (_, ?w1) =>
    destruct (random_digits_spec env 9 w1) as (rout & E2 & D2) end.
  exists acct, rout. eexists.
  split; [unfold create_account, bind; rewrite E1, E2; reflexivity|].
  split; [exact D1|]. split; [exact D2|]. cbn [rand_drawn]. lia.
Qed.


End Loop.

Section Sessions.

Import Agent.

Lemma get_or_create_session_spec env session_id w :
  let sid := resolved env session_id w in
  exists w',
    get_or_create_session env session_id w = (inr (sid, history sid w'), w') /\
    requests w' = requests w /\ rand_drawn w' = rand_drawn w /\
    is_Some (sessions w' !! sid) /\
    ((absent session_id = false /\ is_Some (sessions w !! sid) /\ w' = w) \/
     ((absent session_id = true \/ sessions w !! sid = None) /\
      sessions w' = <[sid := [System SYSTEM_PROMPT]]> (sessions w) /\
      uuid_drawn w' = (if absent session_id then S (uuid_drawn w) else uuid_drawn w))).
Proof.
  unfold get_or_create_session, resolved.
  destruct session_id as [s|]; cbn [absent in_sessions].
  - destruct (PyStr.is_empty s) eqn:E; cbn [orb].
    + eexists. split; [reflexivity|]. cbn. repeat split.
      * rewrite lookup_insert_eq. eauto.
      * right. repeat split. now left.
    + destruct (bool_decide (is_Some (sessions w !! s))) eqn:B; cbn [negb].
      * apply bool_decide_eq_true in B. exists w. repeat split; try assumption.
        left. repeat split. assumption.
      * apply bool_decide_eq_false in B. eexists. split; [reflexivity|]. cbn.
        repeat split.
        -- rewrite lookup_insert_eq. eauto.
        -- right. repeat split. right.
           destruct (sessions w !! s) eqn:L; [|reflexivity]. exfalso. apply B. eauto.
  - eexists. split; [reflexivity|]. cbn. repeat split.
    + rewrite lookup_insert_eq. eauto.
    + right. repeat split. now left.
Qed.




End Sessions.

Section AgentLoop.

Import Agent.

Variable env : Env.
Variable sid : string.

(** One iteration of the loop, case by case. *)
Lemma agent_loop_step n md w :
  agent_loop env (S n) sid md w =
    match completion env (length (requests w)) with
    | Raises detail => (inl (APIError detail), sent sid w)
    | Message content [] =>
        (inr {| sessionId := sid; reply := reply_of content; metadata := md |},
         with_turn sid (Assistant (reply_of content)) (sent sid w))
    | Message content tool_calls =>
        match run_tool_calls env sid tool_calls md
                (with_turn sid (AssistantCalls content tool_calls) (sent sid w)) with
        | (inl e, w2) => (inl e, w2)
        | (inr md', w2) => agent_loop env n sid md' w2
        end
    end.
Proof.
  cbn [agent_loop]. unfold bind at 1. unfold create_completion. fold (sent sid w).
  destruct (completion env (length (requests w))) as [d | content tcs]; [reflexivity|].
  destruct tcs as [|tc tcs]; reflexivity.
Qed.

Lemma agent_loop_done md w :
  agent_loop env 0 sid md w =
    (inr {| sessionId := sid; reply := fallback; metadata := md |},
     with_turn sid (Assistant fallback) w).
Proof. reflexivity. Qed.

Lemma with_turn_appended turn w : appended sid [turn] w (with_turn sid turn w).
Proof. reflexivity. Qed.

Lemma sent_appended w : appended sid [] w (sent sid w).
Proof. now apply appended_nil. Qed.

(** Whatever the loop does and however it ends, the transcript of the
    session only grows at its end, the other transcripts stay as they are,
    at most [n] completions are requested, and an error of the completion
    service is the last thing that happened: nothing was requested after
    it and nothing was appended after the transcript was sent. *)
Lemma agent_loop_inv n : forall md w r w',
  agent_loop env n sid md w = (r, w') ->
  is_Some (sessions w !! sid) ->
  (exists suffix, appended sid suffix w w') /\
  uuid_drawn w' = uuid_drawn w /\
  (exists new, requests w' = (requests w ++ new)%list /\ length new <= n) /\
  (forall i detail,
     length (requests w) <= i < length (requests w') ->
     completion env i = Raises detail ->
     r = inl (APIError detail) /\ S i = length (requests w')) /\
  match r with
  | inl (APIError detail) =>
      length (requests w) < length (requests w') /\
      completion env (length (requests w') - 1) = Raises detail /\
      last (requests w') = Some (history sid w')
  | _ => True
  end.
Proof.
  induction n as [|n IH]; intros md w r w' H S0.
  - rewrite agent_loop_done in H. injection H as <- <-.
    split; [eexists; apply with_turn_appended|]. split; [reflexivity|].
    split; [exists []; split; [now rewrite app_nil_r | reflexivity]|].
    split; [|exact I]. cbn [with_turn set_sessions requests]. intros i d Hi. lia.
  - rewrite agent_loop_step in H.
    destruct (completion env (length (requests w))) as [d | content tcs] eqn:C.
    + injection H as <- <-.
      split; [eexists; apply sent_appended|]. split; [reflexivity|].
      split; [exists [history sid w]; split; [reflexivity | simpl; lia]|].
      cbn [sent requests]. rewrite length_app, last_snoc. cbn [length].
      replace (length (requests w) + 1 - 1) with (length (requests w)) by lia.
      split; [|split; [lia | split; [exact C | reflexivity]]].
      intros i d' Hi Hr. assert (i = length (requests w)) as -> by lia.
      rewrite C in Hr. injection Hr as <-. split; [reflexivity | lia].
    + destruct tcs as [|tc tcs].
      * injection H as <- <-.
        split; [eexists; eapply appended_trans; [apply sent_appended | apply with_turn_appended]|].
        split; [reflexivity|].
        split; [exists [history sid w]; split; [reflexivity | simpl; lia]|].
        split; [|exact I]. cbn [with_turn set_sessions sent requests].
        rewrite length_app. cbn [length]. intros i d' Hi Hr.
        assert (i = length (requests w)) as -> by lia. rewrite C in Hr. discriminate Hr.
      * set (w1 := with_turn sid (AssistantCalls content (tc :: tcs)) (sent sid w)) in H.
        assert (A1 : appended sid [AssistantCalls content (tc :: tcs)] w w1).
        { apply (appended_trans sid [] _ w (sent sid w) w1);
            [apply sent_appended | apply with_turn_appended]. }
        destruct (run_tool_calls env sid (tc :: tcs) md w1) as [[e | md'] w2] eqn:X;
          apply run_tool_calls_spec in X;
          destruct X as (R2 & U2 & results & A2 & X).
        -- injection H as <- <-.
           split; [eexists; exact (appended_trans _ _ _ _ _ _ A1 A2)|].
           split; [exact U2|].
           split; [exists [history sid w]; split; [rewrite R2; reflexivity | simpl; lia]|].
           split; [|destruct X as [N _]; destruct e; try exact I; destruct N].
           rewrite R2. subst w1. cbn [with_turn set_sessions sent requests].
           rewrite length_app. cbn [length]. intros i d' Hi Hr.
           assert (i = length (requests w)) as -> by lia. rewrite C in Hr. discriminate Hr.
        -- destruct (appended_history _ _ _ _ A1 S0) as [_ S1].
           destruct (appended_history _ _ _ _ A2 S1) as [_ S2].
           destruct (IH _ _ _ _ H S2) as ((suffix & A3) & U3 & (new & R3 & L3) & F3 & E3).
           split; [eexists; exact (appended_trans _ _ _ _ _ _ (appended_trans _ _ _ _ _ _ A1 A2) A3)|].
           split; [rewrite U3, U2; reflexivity|].
           assert (R1 : requests w2 = (requests w ++ [history sid w])%list).
           { rewrite R2. reflexivity. }
           split; [|split].
           3: { destruct r as [[] | ]; try exact I.
                destruct E3 as (E3a & E3b & E3c). rewrite R1, length_app in E3a.
                cbn [length] in E3a. split; [lia | split; assumption]. }
           ++ exists (history sid w :: new). split; [|simpl; lia].
              rewrite R3, R1. now rewrite <- app_assoc.
           ++ intros i d' Hi Hr. apply F3; [|exact Hr].
              rewrite R1, length_app. cbn [length].
              destruct (decide (i = length (requests w))) as [-> | Ne]; [|lia].
              rewrite C in Hr. discriminate Hr.
Qed.

End AgentLoop.

Section Requests.

Import Agent.

(** [process_message] is the loop, run from the state in which the session
    exists and the user's turn is appended. *)
Lemma process_message_unfold env session_id msg w :
  exists w0,
    get_or_create_session env session_id w =
      (inr (resolved env session_id w, history (resolved env session_id w) w0), w0) /\
    requests w0 = requests w /\ rand_drawn w0 = rand_drawn w /\
    is_Some (sessions w0 !! resolved env session_id w) /\
    ((absent session_id = false /\ is_Some (sessions w !! resolved env session_id w) /\ w0 = w) \/
     ((absent session_id = true \/ sessions w !! resolved env session_id w = None) /\
      sessions w0 = <[resolved env session_id w := [System SYSTEM_PROMPT]]> (sessions w) /\
      uuid_drawn w0 = (if absent session_id then S (uuid_drawn w) else uuid_drawn w))) /\
    process_message env session_id msg w =
      agent_loop env max_iterations (resolved env session_id w) ∅
        (with_turn (resolved env session_id w) (User msg) w0).
Proof.
  destruct (get_or_create_session_spec env session_id w) as (w0 & E & R & D & S & C).
  exists w0. split; [exact E|]. split; [exact R|]. split; [exact D|].
  split; [exact S|]. split; [exact C|].
  unfold process_message. unfold bind at 1. rewrite E. reflexivity.
Qed.

Lemma absent_resolved env session_id w :
  absent session_id = true -> resolved env session_id w = uuid4 env (uuid_drawn w).
Proof.
  destruct session_id as [s|]; cbn; [intros ->|]; reflexivity.
Qed.

(** One request leaves every stored transcript as a prefix of what is
    stored afterwards, provided a freshly drawn uuid is not already a
    session identifier. *)
Lemma process_message_grows env session_id msg w r w' sid T :
  process_message env session_id msg w = (r, w') ->
  (absent session_id = true -> sessions w !! uuid4 env (uuid_drawn w) = None) ->
  sessions w !! sid = Some T ->
  exists more, sessions w' !! sid = Some (T ++ more)%list.
Proof.
  intros H Fresh L.
  destruct (process_message_unfold env session_id msg w) as (w0 & _ & _ & _ & S0 & C & E).
  rewrite E in H. clear E.
  set (rs := resolved env session_id w) in *.
  assert (S1 : is_Some (sessions (with_turn rs (User msg) w0) !! rs)).
  { apply (appended_history rs [User msg] w0); [apply with_turn_appended | exact S0]. }
  destruct (agent_loop_inv env rs _ _ _ _ _ H S1) as ((suffix & A) & _).
  pose proof (appended_trans _ _ _ _ _ _ (with_turn_appended rs (User msg) w0) A) as A'.
  assert (L0 : sessions w0 !! sid = Some T).
  { destruct C as [(_ & _ & ->) | (N & I & _)]; [exact L|].
    assert (sessions w !! rs = None) as N'.
    { destruct N as [N | N]; [|exact N].
      subst rs. rewrite (absent_resolved _ _ _ N). now apply Fresh. }
    rewrite I, lookup_insert_ne; [exact L|]. intros <-. congruence. }
  exact (appended_lookup _ _ _ _ _ _ A' L0).
Qed.

(** C9. A call of [process_message], completed or not, changes a stored
    transcript only by appending to it: what was stored under a session
    identifier before the call is a prefix of what is stored under it after
    (a freshly drawn uuid is taken not to collide with a stored
    identifier); and over any number of calls with one session identifier
    the first transcript stays a prefix, so the transcript never shrinks. *)
Theorem transcripts_only_grow (env : Env) (w : World) (sid : string) (T : list Turn) :
  sessions w !! sid = Some T ->
  (forall session_id msg r w',
     process_message env session_id msg w = (r, w') ->
     (absent session_id = true -> sessions w !! uuid4 env (uuid_drawn w) = None) ->
     exists more, sessions w' !! sid = Some (T ++ more)%list) /\
  (forall msgs,
     sid <> "" ->
     exists more, sessions (chat_calls env sid msgs w) !! sid = Some (T ++ more)%list).
Proof.
  intros L. split.
  - intros session_id msg r w' H Fresh.
    exact (process_message_grows _ _ _ _ _ _ _ _ H Fresh L).
  - intros msgs Ne. revert w T L.
    induction msgs as [|m msgs IH]; intros w T L; cbn [chat_calls].
    + exists []. now rewrite app_nil_r.
    + destruct (process_message env (Some sid) m w) as [r w1] eqn:H. cbn [snd].
      assert (A : absent (Some sid) = false) by (destruct sid; [congruence | reflexivity]).
      destruct (process_message_grows _ _ _ _ _ _ _ _ H
                  ltac:(rewrite A; discriminate) L) as (more1 & L1).
      destruct (IH _ _ L1) as (more2 & L2).
      exists (more1 ++ more2)%list. now rewrite app_assoc.
Qed.

(** C9 at two requests sent to the session [s1]: its first transcript is a
    prefix of the last. *)
Lemma transcripts_only_grow_witness :
  sessions demo_world !! "s1" = Some [System SYSTEM_PROMPT] /\
  exists more,
    sessions (chat_calls demo_env "s1" ["Hi"; "My zip is 12345"] demo_world) !! "s1"
      = Some ([System SYSTEM_PROMPT] ++ more)%list.
Proof.
  split; [reflexivity|].
  apply (proj2 (transcripts_only_grow demo_env demo_world "s1" [System SYSTEM_PROMPT] eq_refl)).
  discriminate.
Defined.

End Requests.

Section Failures.

Import Agent.

(** C6, the claim as stated fails: the transcript is not unchanged by a
    call that fails.  The completion service raises on the first request;
    the user's turn, appended before that request, stays in the stored
    transcript. *)
Lemma failed_call_keeps_user_turn :
  fst (process_message failing_env (Some "s1") "Hello" demo_world)
    = inl (APIError "Connection error.") /\
  history "s1" demo_world = [System SYSTEM_PROMPT] /\
  history "s1" (snd (process_message failing_env (Some "s1") "Hello" demo_world))
    = [System SYSTEM_PROMPT; User "Hello"].
Proof. split; [|split]; vm_compute; reflexivity. Qed.

(** C6, amended.  When a request to the completion service raises, the
    call of [process_message] ends with that error: the request that raised
    is the last one made and every earlier request of the call had
    returned a message, so nothing was retried; the chat endpoint turns
    the error into a 500 whose detail carries it.  The failed request
    appends nothing: the stored transcript is exactly the transcript that
    was sent with it.  What the call had appended before stays: the
    transcript holds the user's turn, right after the turns the session had
    before the call. *)
Theorem completion_failure_propagates (env : Env) (session_id : option string)
    (msg : string) (w : World) (detail : string) (w' : World) :
  process_message env session_id msg w = (inl (APIError detail), w') ->
  completion env (length (requests w') - 1) = Raises detail /\
  length (requests w) < length (requests w') <= length (requests w) + max_iterations /\
  (forall i, length (requests w) <= i < length (requests w') - 1 ->
     exists content tool_calls, completion env i = Message content tool_calls) /\
  last (requests w') = Some (history (resolved env session_id w) w') /\
  (exists before rest,
     history (resolved env session_id w) w' = (before ++ User msg :: rest)%list /\
     (absent session_id = false ->
      forall T, sessions w !! resolved env session_id w = Some T -> before = T)) /\
  Main.chat env {| Main.req_message := msg; Main.req_sessionId := session_id |} w =
    (Main.HTTPException 500 ("Agent error: " +:+ detail), w').
Proof.
  intros H.
  assert (Hchat : Main.chat env {| Main.req_message := msg; Main.req_sessionId := session_id |} w =
                  (Main.HTTPException 500 ("Agent error: " +:+ detail), w')).
  { unfold Main.chat. cbn [Main.req_message Main.req_sessionId]. now rewrite H. }
  destruct (process_message_unfold env session_id msg w) as (w0 & _ & R0 & _ & S0 & C & E).
  rewrite E in H. clear E.
  set (rs := resolved env session_id w) in *.
  pose proof (with_turn_appended rs (User msg) w0) as A0.
  destruct (appended_history _ _ _ _ A0 S0) as [H1 S1].
  destruct (agent_loop_inv env rs _ _ _ _ _ H S1)
    as ((suffix & A) & _ & (new & R & Ln) & F & Hpos & Hlast & Hsent).
  assert (R1 : requests (with_turn rs (User msg) w0) = requests w) by exact R0.
  rewrite R1 in R, F.
  destruct (appended_history _ _ _ _ A S1) as [H2 _].
  rewrite R1 in Hpos.
  split; [exact Hlast|]. split; [rewrite R, length_app in *; unfold max_iterations in *; lia|].
  split.
  { intros i Hi. destruct (completion env i) as [d | c tcs] eqn:Ci; [|eauto].
    destruct (F i d ltac:(lia) Ci) as [_ Hs]. lia. }
  split; [exact Hsent|]. split; [|exact Hchat].
  exists (history rs w0), suffix. split; [rewrite H2, H1, <- app_assoc; reflexivity|].
  intros Ab T L. destruct C as [(_ & _ & ->) | ([N | N] & _)].
  - unfold history. now rewrite L.
  - congruence.
  - congruence.
Qed.

(** C6 (amended) at a request to the session [s1] while the service is
    unreachable: the error reaches the endpoint as a 500. *)
Lemma completion_failure_propagates_witness :
  process_message failing_env (Some "s1") "Hello" demo_world =
    (inl (APIError "Connection error."),
     snd (process_message failing_env (Some "s1") "Hello" demo_world)) /\
  Main.chat failing_env {| Main.req_message := "Hello"; Main.req_sessionId := Some "s1" |}
      demo_world =
    (Main.HTTPException 500 "Agent error: Connection error.",
     snd (process_message failing_env (Some "s1") "Hello" demo_world)).
Proof.
  assert (H : process_message failing_env (Some "s1") "Hello" demo_world =
              (inl (APIError "Connection error."),
               snd (process_message failing_env (Some "s1") "Hello" demo_world))).
  { vm_compute. reflexivity. }
  split; [exact H|].
  exact (proj2 (proj2 (proj2 (proj2 (proj2
    (completion_failure_propagates failing_env (Some "s1") "Hello" demo_world
       "Connection error." _ H)))))).
Defined.

End Failures.

Section ToolOrder.

Import Agent.




(** The worked example end to end: the three results are in the
    transcript in the order asked, before the closing reply. *)
Example three_tools_then_reply :
  map (fun t => match t with
                | System _ => "system"
                | User _ => "user"
                | AssistantCalls _ _ => "assistant+calls"
                | Assistant _ => "assistant"
                | Tool i _ => i
                end)
      (history "s1" (snd (process_message demo_env (Some "s1") "Hi" demo_world)))
  = ["system"; "user"; "assistant+calls"; "call_1"; "call_2"; "call_3"; "assistant"].
Proof. vm_compute. reflexivity. Qed.

End ToolOrder.

Section Exhaustion.

Import Agent.








End Exhaustion.

(** * Further properties of the code *)

Section Strings.

Lemma rstrip_idem s : PyStr.rstrip (PyStr.rstrip s) = PyStr.rstrip s.
Proof.
  induction s as [|c s IH]; [reflexivity|]. cbn [PyStr.rstrip].
  destruct (PyStr.rstrip s) as [|c' r] eqn:R.
  - destruct (PyStr.isspace c) eqn:E; [reflexivity|].
    cbn [PyStr.rstrip]. now rewrite E.
  - change (PyStr.rstrip (String c (String c' r))) with
      (match PyStr.rstrip (String c' r) with
       | EmptyString => if PyStr.isspace c then EmptyString else String c EmptyString
       | String a b => String c (String a b)
       end).
    now rewrite IH.
Qed.

Lemma lstrip_head s :
  PyStr.lstrip s = EmptyString \/
  exists c t, PyStr.lstrip s = String c t /\ PyStr.isspace c = false.
Proof.
  induction s as [|c s IH]; [now left|]. cbn [PyStr.lstrip].
  destruct (PyStr.isspace c) eqn:E; [exact IH | right; eauto].
Qed.

Lemma lstrip_rstrip c t :
  PyStr.isspace c = false ->
  PyStr.lstrip (PyStr.rstrip (String c t)) = PyStr.rstrip (String c t).
Proof.
  intros E. cbn [PyStr.rstrip]. destruct (PyStr.rstrip t); rewrite ?E;
    cbn [PyStr.lstrip]; now rewrite E.
Qed.

(** Stripping twice is stripping once. *)
Lemma strip_idem s : PyStr.strip (PyStr.strip s) = PyStr.strip s.
Proof.
  unfold PyStr.strip.
  destruct (lstrip_head s) as [-> | (c & t & -> & E)]; [reflexivity|].
  rewrite (lstrip_rstrip c t E). apply rstrip_idem.
Qed.

Lemma filter_idem p s : PyStr.filter p (PyStr.filter p s) = PyStr.filter p s.
Proof.
  induction s as [|c s IH]; [reflexivity|]. cbn [PyStr.filter].
  destruct (p c) eqn:E; [|exact IH]. cbn [PyStr.filter]. now rewrite E, IH.
Qed.

Lemma filter_all_chars p s : all_chars p (PyStr.filter p s) = true.
Proof.
  induction s as [|c s IH]; [reflexivity|]. cbn [PyStr.filter].
  destruct (p c) eqn:E; [|exact IH]. cbn [all_chars]. now rewrite E, IH.
Qed.

Lemma all_chars_filter p s : all_chars p s = true -> PyStr.filter p s = s.
Proof.
  induction s as [|c s IH]; [reflexivity|]. cbn [all_chars PyStr.filter].
  intros H. apply andb_true_iff in H. destruct H as [H1 H2]. now rewrite H1, IH.
Qed.

Lemma digit_not_space c : PyStr.isdigit c = true -> PyStr.isspace c = false.
Proof.
  intros D. destruct (PyStr.isspace c) eqn:E; [|reflexivity].
  rewrite (space_not_digit c E) in D. discriminate D.
Qed.

Lemma lstrip_digits s : all_chars PyStr.isdigit s = true -> PyStr.lstrip s = s.
Proof.
  destruct s as [|c s]; [reflexivity|]. cbn [all_chars PyStr.lstrip].
  intros H. apply andb_true_iff in H. destruct H as [H _].
  now rewrite (digit_not_space c H).
Qed.

Lemma rstrip_digits s : all_chars PyStr.isdigit s = true -> PyStr.rstrip s = s.
Proof.
  induction s as [|c s IH]; [reflexivity|]. cbn [all_chars PyStr.rstrip].
  intros H. apply andb_true_iff in H. destruct H as [H1 H2].
  rewrite (IH H2). destruct s; [now rewrite (digit_not_space c H1) | reflexivity].
Qed.

(** A string of digits has nothing to strip. *)
Lemma strip_digits s : all_chars PyStr.isdigit s = true -> PyStr.strip s = s.
Proof.
  intros H. unfold PyStr.strip. now rewrite (lstrip_digits s H), (rstrip_digits s H).
Qed.

End Strings.

Section RegexFacts.










End RegexFacts.

Section FieldRules.

Import Agent DateTime.

Lemma validate_field_strip today field_name value :
  validate_field today field_name (PyStr.strip value) = validate_field today field_name value.
Proof. unfold validate_field. now rewrite strip_idem. Qed.

(** X1. Surrounding whitespace never matters to [validate_field]: a value
    and its stripped form get the same result, for every field name. *)
Theorem validate_field_ignores_padding (today : date) (field_name value : string) :
  validate_field today field_name (PyStr.strip value) = validate_field today field_name value.
Proof.
  unfold validate_field. rewrite strip_idem. reflexivity.
Qed.

Lemma states_are_clean c : c ∈ VALID_STATES -> PyStr.upper (PyStr.strip c) = c.
Proof.
  unfold VALID_STATES. rewrite elem_of_list_to_set, list_elem_of_In. cbn [In].
  intros H. repeat (destruct H as [<- | H]; [reflexivity|]). contradiction.
Qed.

Ltac split_ifs :=
  repeat match goal with
  | |- context [check_age ?t ?d ?v] =>
      destruct (check_age_shape t d v) as [[? ->] | ->]
  | |- context [if ?b then _ else _] => destruct b eqn:?
  | |- context [match ?o with Some _ => _ | None => _ end] => destruct o eqn:?
  end.

(** An accepted value of one of the fields whose cleaned value is the
    stripped input. *)
Lemma accept_is_stripped today field_name value c :
  In field_name ["firstName"; "lastName"; "email"; "dateOfBirth"; "street"; "city"; "zip"] ->
  validate_field today field_name value = accept c -> c = PyStr.strip value.
Proof.
  cbn [In]. intros H.
  repeat (destruct H as [<- | H]; [
    unfold validate_field; cbn [String.eqb Ascii.eqb Bool.eqb orb]; split_ifs;
    intros E; first [ exact (eq_sym (accept_inj _ _ E))
                    | exfalso; exact (reject_not_accept _ _ E) ] | ]).
  contradiction.
Qed.

(** X2. A cleaned value is a fixed point of [validate_field]: when a value
    is accepted, its cleaned value is accepted under the same field name and
    is its own cleaned value. *)
Theorem cleaned_value_is_stable (today : date) (field_name value c : string) :
  validate_field today field_name value = accept c ->
  validate_field today field_name c = accept c.
Proof.
  intros H.
  destruct (in_dec string_dec field_name
              ["firstName"; "lastName"; "email"; "dateOfBirth"; "street"; "city"; "zip"])
    as [I | N].
  { rewrite (accept_is_stripped _ _ _ _ I H) at 1.
    now rewrite validate_field_strip. }
  revert H. unfold validate_field.
  repeat match goal with
  | |- context [String.eqb field_name ?s] =>
      let E := fresh "E" in
      destruct (String.eqb field_name s) eqn:E;
      [ apply String.eqb_eq in E;
        try (exfalso; apply N; rewrite E; cbn [In]; tauto) | ]
  end; cbn [orb].
  - (* phone *)
    set (d := Re.sub_nondigits (PyStr.strip value)).
    destruct (negb (PyStr.len d =? 10)%nat) eqn:L;
      [intros Hacc; exfalso; exact (reject_not_accept _ _ Hacc)|].
    intros Hacc. apply accept_inj in Hacc. subst c.
    assert (A : all_chars PyStr.isdigit d = true) by apply filter_all_chars.
    rewrite (strip_digits d A). unfold Re.sub_nondigits at 1 2.
    rewrite (all_chars_filter _ d A). fold d. now rewrite L.
  - (* ssn *)
    set (d := Re.sub_nondigits (PyStr.strip value)).
    destruct (negb (PyStr.len d =? 9)%nat) eqn:L;
      [intros Hacc; exfalso; exact (reject_not_accept _ _ Hacc)|].
    destruct (PyStr.startswith d "000" || PyStr.startswith d "666" || PyStr.startswith d "9")
      eqn:P; [intros Hacc; exfalso; exact (reject_not_accept _ _ Hacc)|].
    intros Hacc. apply accept_inj in Hacc. subst c.
    assert (A : all_chars PyStr.isdigit d = true) by apply filter_all_chars.
    rewrite (strip_digits d A). unfold Re.sub_nondigits at 1 2 3 4 5.
    rewrite (all_chars_filter _ d A). fold d. now rewrite L, P.
  - (* state *)
    set (u := PyStr.upper (PyStr.strip value)).
    destruct (bool_decide (u ∈ VALID_STATES)) eqn:B; cbn [negb];
      [|intros Hacc; exfalso; exact (reject_not_accept _ _ Hacc)].
    intros Hacc. apply accept_inj in Hacc. subst c.
    apply bool_decide_eq_true in B.
    rewrite (states_are_clean u B). now rewrite (bool_decide_eq_true_2 _ B).
  - intros Hacc. exfalso. exact (reject_not_accept _ _ Hacc).
Qed.

(** X2 at a phone number written with punctuation. *)
Lemma cleaned_value_is_stable_witness :
  validate_field (Date 2025 6 1) "phone" "(555) 123-4567" = accept "5551234567" /\
  validate_field (Date 2025 6 1) "phone" "5551234567" = accept "5551234567".
Proof.
  assert (H : validate_field (Date 2025 6 1) "phone" "(555) 123-4567" = accept "5551234567")
    by (vm_compute; reflexivity).
  split; [exact H|].
  exact (cleaned_value_is_stable (Date 2025 6 1) "phone" "(555) 123-4567" "5551234567" H).
Defined.

End FieldRules.

Section FieldRules2.

Import Agent DateTime.









Lemma reject_inj m m' : reject m = reject m' -> m = m'.
Proof.
  intros H. apply (f_equal (fun d : dict => d !! "message")) in H.
  change (Some (PyStr m) = Some (PyStr m')) in H. congruence.
Qed.

(** X8. The field names [validate_field] knows are exactly the ten of the
    tool catalogue: the result is the unknown-field rejection if and only
    if the name is not one of [FIELD_NAMES]. *)
Theorem unknown_field_iff (today : date) (field_name value : string) :
  validate_field today field_name value = reject ("Unknown field: " +:+ field_name) <->
  ~ In field_name FIELD_NAMES.
Proof.
  split.
  - intros H I. unfold FIELD_NAMES in I. cbn [In] in I.
    repeat (destruct I as [<- | I]; [
      revert H; unfold validate_field, check_age;
      cbn [String.eqb Ascii.eqb Bool.eqb orb];
      repeat match goal with
      | |- context [if ?b then _ else _] => destruct b
      | |- context [match ?o with Some _ => _ | None => _ end] => destruct o
      end;
      intros H;
      first [ exact (reject_not_accept _ _ (eq_sym H))
            | apply reject_inj in H; discriminate H ] | ]).
    contradiction.
  - intros N. unfold validate_field.
    repeat match goal with
    | |- context [String.eqb field_name ?s] =>
        let E := fresh "E" in
        destruct (String.eqb field_name s) eqn:E;
        [ apply String.eqb_eq in E; exfalso; apply N; rewrite E; simpl; tauto | ]
    end.
    reflexivity.
Qed.

(** X9. The age the code computes is at least [n] exactly when the [n]-th
    birthday is today or earlier; so a date of birth passes the age check
    exactly from the 18th birthday on and until the day before the 121st. *)
Theorem age_counts_birthdays (today dob : date) (v : string) :
  (forall n, (n <= age today dob)%Z <-> birthday_reached n today dob) /\
  (is_valid (check_age today dob v) = true <->
   birthday_reached 18 today dob /\ ~ birthday_reached 121 today dob).
Proof.
  assert (A : forall n, (n <= age today dob)%Z <-> birthday_reached n today dob).
  { intros n. unfold age, pair_ltb, birthday_reached.
    destruct (Z.ltb_spec (month today) (month dob)),
             (Z.eqb_spec (month today) (month dob)),
             (Z.ltb_spec (day today) (day dob)); cbn [orb andb]; lia. }
  split; [exact A|].
  rewrite check_age_valid, <- !A. lia.
Qed.

End FieldRules2.

Section AddressRules.

Import Agent DateTime.










End AddressRules.

Section Tools.

Import Agent.

Lemma tool_names : map tool_name TOOLS = ["validate_field"; "show_agreement"; "create_account"].
Proof. reflexivity. Qed.

(** X12. A tool name outside the catalogue is answered with the
    unknown-tool dictionary, whatever the arguments, without an exception
    and without a change of state; a name of the catalogue never is: what
    its handler returns has no [error] key. *)
Theorem unknown_tool_is_an_answer (env : Env) (name : string) (args : JSON) (w : World) :
  (~ In name (map tool_name TOOLS) ->
   execute_tool env name args w = (inr (unknown_tool name), w)) /\
  (In name (map tool_name TOOLS) ->
   forall r w', execute_tool env name args w = (inr r, w') -> r !! "error" = None).
Proof.
  rewrite tool_names. cbn [In]. split.
  - intros N. unfold execute_tool.
    repeat match goal with
    | |- context [String.eqb name ?s] =>
        let E := fresh "E" in
        destruct (String.eqb name s) eqn:E;
        [ apply String.eqb_eq in E; exfalso; apply N; rewrite E; tauto | ]
    end.
    reflexivity.
  - intros [<- | [<- | [<- | []]]] r w'; unfold execute_tool;
      cbn [String.eqb Ascii.eqb Bool.eqb].
    + unfold bind, lift.
      destruct (json_item args "field_name") as [e | fn]; [discriminate|].
      destruct (json_item args "value") as [e | v]; [discriminate|].
      unfold call_validate_field. destruct v as [| | |s]; try discriminate.
      intros [= <- <-].
      destruct (validate_field_shape (today env) (py_str fn) s) as [[m ->] | [c ->]];
        reflexivity.
    + intros [= <- <-]. reflexivity.
    + destruct args as [v | | d].
      * unfold create_account, bind, random_digits, lift, json_get. discriminate.
      * unfold create_account, bind, random_digits, lift, json_get. discriminate.
      * destruct (create_account_object env d w) as (a & b & w1 & C & _).
        rewrite C. intros [= <- <-]. reflexivity.
Qed.

(** X13. What a [validate_field] invocation raises when its arguments are
    not what the handler reads: KeyError for a missing [field_name], also
    when [value] is missing too; KeyError for a missing [value]; TypeError
    when the argument text is JSON but not an object; AttributeError when
    [value] is not a string.  With a [field_name] and a string [value] it
    returns the result of [validate_field], the name formatted as a string.
    In every case the state is left as it was. *)
Theorem validate_field_tool_errors (env : Env) (args : JSON) (w : World) :
  snd (execute_tool env "validate_field" args w) = w /\
  match args with
  | JObject d =>
      match d !! "field_name", d !! "value" with
      | None, _ =>
          fst (execute_tool env "validate_field" args w) = inl (KeyError "field_name")
      | Some _, None =>
          fst (execute_tool env "validate_field" args w) = inl (KeyError "value")
      | Some fn, Some (PyStr v) =>
          fst (execute_tool env "validate_field" args w) =
            inr (validate_field (today env) (py_str fn) v)
      | Some _, Some _ =>
          exists detail,
            fst (execute_tool env "validate_field" args w) = inl (AttributeError detail)
      end
  | _ => exists detail, fst (execute_tool env "validate_field" args w) = inl (TypeError detail)
  end.
Proof.
  unfold execute_tool. cbn [String.eqb Ascii.eqb Bool.eqb].
  unfold bind, lift, json_item, dict_item, call_validate_field.
  destruct args as [v | | d]; try (split; [reflexivity | eexists; reflexivity]).
  destruct (d !! "field_name") as [fn|]; [|split; reflexivity].
  destruct (d !! "value") as [[| | |s]|];
    (split; [reflexivity | first [reflexivity | eexists; reflexivity]]).
Qed.

Lemma execute_tool_draws env name args w r w' :
  execute_tool env name args w = (r, w') ->
  rand_drawn w' = rand_drawn w + (if String.eqb name "create_account" then 19 else 0).
Proof.
  unfold execute_tool.
  destruct (String.eqb name "validate_field") eqn:E1.
  { apply String.eqb_eq in E1. subst name. cbn [String.eqb Ascii.eqb Bool.eqb].
    unfold bind, lift.
    destruct (json_item args "field_name"); [intros [= <- <-]; lia|].
    destruct (json_item args "value"); intros [= <- <-]; lia. }
  destruct (String.eqb name "show_agreement") eqn:E2.
  { apply String.eqb_eq in E2. subst name. cbn [String.eqb Ascii.eqb Bool.eqb].
    intros [= <- <-]. lia. }
  destruct (String.eqb name "create_account") eqn:E3.
  - unfold create_account, bind, random_digits, lift, ret.
    destruct (json_get args "firstName" (PyStr "")); [intros [= <- <-]; cbn; lia|].
    destruct (json_get args "lastName" (PyStr "")); intros [= <- <-]; cbn; lia.
  - intros [= <- <-]. lia.
Qed.

(** X14. No tool handler touches the session store, the request log or
    the uuid source, and only [create_account] draws random digits: it
    draws its nineteen before it looks at its arguments, so also when it
    then raises. *)
Theorem tools_leave_the_store_alone (env : Env) (name : string) (args : JSON) (w : World) :
  sessions (snd (execute_tool env name args w)) = sessions w /\
  requests (snd (execute_tool env name args w)) = requests w /\
  uuid_drawn (snd (execute_tool env name args w)) = uuid_drawn w /\
  rand_drawn (snd (execute_tool env name args w)) =
    rand_drawn w + (if String.eqb name "create_account" then 19 else 0).
Proof.
  destruct (execute_tool env name args w) as [r w'] eqn:X. cbn [snd].
  destruct (execute_tool_quiet _ _ _ _ _ _ X) as [(Q1 & Q2 & Q3) _].
  split; [exact Q1|]. split; [exact Q2|]. split; [exact Q3|].
  exact (execute_tool_draws _ _ _ _ _ _ X).
Qed.

Lemma run_tool_call_plain env sid tc md w r w' :
  is_create tc = false ->
  run_tool_call env sid tc md w = (r, w') ->
  rand_drawn w' = rand_drawn w /\ (forall md', r = inr md' -> md' = md).
Proof.
  unfold is_create, run_tool_call, bind, lift, ret, json_loads. intros N.
  destruct (tc_arguments tc) as [text | j]; [intros [= <- <-]; split; [reflexivity|discriminate]|].
  destruct (execute_tool env (tc_name tc) j w) as [[e | result] w1] eqn:X;
    pose proof (execute_tool_draws _ _ _ _ _ _ X) as R; rewrite N, Nat.add_0_r in R.
  { intros [= <- <-]. split; [exact R | discriminate]. }
  unfold capture_account. rewrite N.
  intros [= <- <-]. split; [exact R | now intros md' [= <-]].
Qed.

(** X15. Invocations other than [create_account] neither draw random
    digits nor change the metadata: whatever a list of such invocations
    does, and whether it ends or raises, no account number is produced and
    the metadata returned are the metadata given. *)
Theorem only_create_account_creates (env : Env) (sid : string) (tcs : list ToolCall)
    (md : dict) (w : World) (r : Exn + dict) (w' : World) :
  forallb (fun tc => negb (is_create tc)) tcs = true ->
  run_tool_calls env sid tcs md w = (r, w') ->
  rand_drawn w' = rand_drawn w /\ (forall md', r = inr md' -> md' = md).
Proof.
  revert md w. induction tcs as [|tc tcs IH]; intros md w H; cbn [run_tool_calls].
  - intros [= <- <-]. split; [reflexivity | now intros md' [= <-]].
  - cbn [forallb] in H. apply andb_true_iff in H. destruct H as [H1 H2].
    apply negb_true_iff in H1. unfold bind.
    destruct (run_tool_call env sid tc md w) as [[e | md1] w1] eqn:X;
      destruct (run_tool_call_plain _ _ _ _ _ _ _ H1 X) as [R M].
    + intros [= <- <-]. split; [exact R | discriminate].
    + rewrite (M md1 eq_refl). intros Y. destruct (IH md w1 H2 Y) as [R' M'].
      split; [congruence | exact M'].
Qed.

(** X15 at a validation followed by the agreement. *)
Lemma only_create_account_creates_witness :
  rand_drawn (snd (run_tool_calls demo_env "s1" [call_validate; call_agreement] ∅
                     greeted_world)) = rand_drawn greeted_world.
Proof.
  destruct (run_tool_calls demo_env "s1" [call_validate; call_agreement] ∅ greeted_world)
    as [r w'] eqn:X. cbn [snd].
  exact (proj1 (only_create_account_creates demo_env "s1" [call_validate; call_agreement]
                  ∅ greeted_world r w' eq_refl X)).
Defined.



End Tools.

Section Rounds.

Import Agent.

Lemma agent_loop_rounds env sid n : forall md w r w',
  agent_loop env n sid md w = (inr r, w') ->
  is_Some (sessions w !! sid) ->
  sessionId r = sid /\ exists suffix, appended sid suffix w w' /\ rounds suffix (reply r).
Proof.
  induction n as [|n IH]; intros md w r w' H S0.
  - rewrite agent_loop_done in H. injection H as <- <-. split; [reflexivity|].
    exists [Assistant fallback]. split; [apply with_turn_appended | constructor].
  - rewrite agent_loop_step in H.
    destruct (completion env (length (requests w))) as [d | content tcs]; [discriminate|].
    assert (S1 : is_Some (sessions (sent sid w) !! sid)) by exact S0.
    destruct tcs as [|tc tcs].
    + injection H as <- <-. split; [reflexivity|].
      exists ([] ++ [Assistant (reply_of content)])%list. split; [|constructor].
      apply (appended_trans sid [] _ w (sent sid w)); [apply sent_appended|].
      apply with_turn_appended.
    + set (w1 := with_turn sid (AssistantCalls content (tc :: tcs)) (sent sid w)) in H.
      assert (A1 : appended sid ([] ++ [AssistantCalls content (tc :: tcs)]) w w1).
      { apply (appended_trans sid [] _ w (sent sid w)); [apply sent_appended|].
        apply with_turn_appended. }
      destruct (appended_history _ _ _ _ A1 S0) as [_ S2].
      destruct (run_tool_calls env sid (tc :: tcs) md w1) as [[e | md'] w2] eqn:X;
        [discriminate|].
      destruct (run_tool_calls_spec _ _ _ _ _ _ _ X) as (_ & _ & results & A2 & An).
      destruct (appended_history _ _ _ _ A2 S2) as [_ S3].
      destruct (IH _ _ _ _ H S3) as (Hs & rest & A3 & R).
      split; [exact Hs|].
      exists (AssistantCalls content (tc :: tcs) :: results ++ rest)%list.
      split; [|constructor; [discriminate | exact An | exact R]].
      pose proof (appended_trans _ _ _ _ _ _ A1 (appended_trans _ _ _ _ _ _ A2 A3)) as A.
      exact A.
Qed.

Lemma rounds_last suffix reply : rounds suffix reply -> last suffix = Some (Assistant reply).
Proof.
  induction 1 as [reply | content tcs results rest reply _ _ _ IH]; [reflexivity|].
  rewrite last_cons, last_app, IH. reflexivity.
Qed.

Lemma opening_history env session_id w w0 :
  is_Some (sessions w0 !! resolved env session_id w) ->
  (absent session_id = false /\ is_Some (sessions w !! resolved env session_id w) /\ w0 = w) \/
  ((absent session_id = true \/ sessions w !! resolved env session_id w = None) /\
   sessions w0 = <[resolved env session_id w := [System SYSTEM_PROMPT]]> (sessions w) /\
   uuid_drawn w0 = (if absent session_id then S (uuid_drawn w) else uuid_drawn w)) ->
  history (resolved env session_id w) w0 = opening env session_id w.
Proof.
  intros S0 [(Ab & [T L] & ->) | ([Ab | N] & I & _)]; unfold opening, history.
  - now rewrite Ab, L.
  - now rewrite Ab, I, lookup_insert_eq.
  - rewrite I, lookup_insert_eq, N. now destruct (absent session_id).
Qed.

(** X17. Whenever [process_message] returns, what it has stored for the
    session it names is the transcript the call started from, the user's
    turn, and then rounds of tool use closed by the reply: every assistant
    turn with invocations is followed by exactly one tool turn for each of
    them, with its invocation id and in their order, before the next
    assistant turn, and the last turn is the assistant turn holding the
    reply returned, be it the service's or the fallback. *)
Theorem a_call_appends_rounds (env : Env) (session_id : option string) (msg : string)
    (w : World) (r : Reply) (w' : World) :
  process_message env session_id msg w = (inr r, w') ->
  sessionId r = resolved env session_id w /\
  exists suffix,
    history (sessionId r) w' = (opening env session_id w ++ User msg :: suffix)%list /\
    rounds suffix (reply r) /\
    last (history (sessionId r) w') = Some (Assistant (reply r)).
Proof.
  intros H.
  destruct (process_message_unfold env session_id msg w) as (w0 & _ & _ & _ & S0 & Cs & E).
  rewrite E in H. clear E.
  pose proof (opening_history env session_id w w0 S0 Cs) as O.
  set (rs := resolved env session_id w) in *.
  pose proof (with_turn_appended rs (User msg) w0) as A0.
  destruct (appended_history rs [User msg] w0 _ A0 S0) as [_ S1].
  destruct (agent_loop_rounds env rs _ _ _ _ _ H S1) as (Hs & suffix & A & R).
  rewrite Hs. split; [reflexivity|].
  exists suffix.
  destruct (appended_history _ _ _ _ (appended_trans _ _ _ _ _ _ A0 A) S0) as [Hh _].
  rewrite Hh, O. cbn [app].
  split; [reflexivity|]. split; [exact R|].
  rewrite last_app, last_cons, (rounds_last _ _ R). reflexivity.
Qed.

(** X17 at the worked example. *)
Lemma a_call_appends_rounds_witness :
  exists suffix,
    history "s1" (snd (process_message demo_env (Some "s1") "Hi" demo_world)) =
      ([System SYSTEM_PROMPT] ++ User "Hi" :: suffix)%list /\
    rounds suffix "All set.".
Proof.
  destruct (process_message demo_env (Some "s1") "Hi" demo_world) as [[e | r] w'] eqn:X.
  - exfalso. apply (f_equal (fun p => returned (fst p))) in X.
    vm_compute in X. discriminate X.
  - destruct (a_call_appends_rounds demo_env (Some "s1") "Hi" demo_world r w' X)
      as (Hs & suffix & Hh & R & _).
    cbn [resolved PyStr.is_empty] in Hs. rewrite Hs in Hh.
    exists suffix. cbn [snd]. split; [exact Hh|].
    apply (f_equal (fun p => match fst p with inr r => reply r | inl _ => "" end)) in X.
    cbn [fst] in X. rewrite <- X in R. exact R.
Defined.

End Rounds.

Section Conversation.

Import Agent.

(** X18. A message that the completion service answers at once, without
    tool invocations, costs one request and draws no random digit; the
    answer's content, or the empty string when it has none, is returned
    with empty metadata, and the transcript of the session grows by the
    user's turn and the assistant's turn and by nothing else. *)
Theorem plain_reply (env : Env) (session_id : option string) (msg : string) (w : World)
    (content : option string) :
  completion env (length (requests w)) = Message content [] ->
  exists w',
    process_message env session_id msg w =
      (inr {| sessionId := resolved env session_id w; reply := reply_of content;
              metadata := ∅ |}, w') /\
    length (requests w') = S (length (requests w)) /\
    rand_drawn w' = rand_drawn w /\
    (absent session_id = false ->
     forall T, sessions w !! resolved env session_id w = Some T ->
       history (resolved env session_id w) w' =
         (T ++ [User msg; Assistant (reply_of content)])%list) /\
    (absent session_id = true \/ sessions w !! resolved env session_id w = None ->
     history (resolved env session_id w) w' =
       [System SYSTEM_PROMPT; User msg; Assistant (reply_of content)]).
Proof.
  intros C.
  destruct (process_message_unfold env session_id msg w) as (w0 & _ & R0 & D0 & S0 & Cs & E).
  rewrite E. clear E.
  set (rs := resolved env session_id w) in *.
  set (w1 := with_turn rs (User msg) w0).
  assert (R1 : requests w1 = requests w) by exact R0.
  unfold max_iterations. rewrite agent_loop_step, R1, C.
  eexists. split; [reflexivity|].
  split; [cbn [with_turn set_sessions sent requests]; rewrite R1, length_app; cbn; lia|].
  split; [exact D0|].
  assert (A : appended rs [User msg; Assistant (reply_of content)] w0
                (with_turn rs (Assistant (reply_of content)) (sent rs w1))).
  { apply (appended_trans rs [User msg] [Assistant (reply_of content)] w0 w1);
      [apply with_turn_appended|].
    apply (appended_trans rs [] _ w1 (sent rs w1)); [apply sent_appended|].
    apply with_turn_appended. }
  destruct (appended_history _ _ _ _ A S0) as [H _]. rewrite H.
  split.
  - intros Ab T L. destruct Cs as [(_ & _ & ->) | ([N | N] & _)]; [|congruence|congruence].
    unfold history. now rewrite L.
  - intros Hnew. destruct Cs as [(Ab & [T L] & _) | (_ & I & _)].
    + destruct Hnew; congruence.
    + unfold history at 1. now rewrite I, lookup_insert_eq.
Qed.

(** X18 at a service that replies at once to a new client. *)
Lemma plain_reply_witness :
  exists w',
    process_message (looping_env call_create) None "Hi" empty_world = (inr
      {| sessionId := "uuid-0"; reply := ""; metadata := ∅ |}, w') \/
    process_message demo_env None "Hi"
      {| sessions := ∅; uuid_drawn := 0; rand_drawn := 0; requests := [[]] |} =
      (inr {| sessionId := "uuid-0"; reply := "All set."; metadata := ∅ |}, w').
Proof.
  destruct (plain_reply demo_env None "Hi"
              {| sessions := ∅; uuid_drawn := 0; rand_drawn := 0; requests := [[]] |}
              (Some "All set.") eq_refl) as (w' & E & _).
  exists w'. right. exact E.
Defined.

(** X19. One call of [process_message], however it ends, makes at most ten
    requests to the completion service, draws a uuid only when no session
    identifier was given, leaves the session it works on in the store, and
    leaves every other session exactly as it was. *)
Theorem a_call_is_bounded_and_local (env : Env) (session_id : option string)
    (msg : string) (w : World) (r : Exn + Reply) (w' : World) :
  process_message env session_id msg w = (r, w') ->
  length (requests w) <= length (requests w') <= length (requests w) + max_iterations /\
  uuid_drawn w' = (if absent session_id then S (uuid_drawn w) else uuid_drawn w) /\
  is_Some (sessions w' !! resolved env session_id w) /\
  (forall sid, sid <> resolved env session_id w -> sessions w' !! sid = sessions w !! sid).
Proof.
  intros H.
  destruct (process_message_unfold env session_id msg w) as (w0 & _ & R0 & _ & S0 & Cs & E).
  rewrite E in H. clear E.
  set (rs := resolved env session_id w) in *.
  destruct (appended_history rs [User msg] w0 _ (with_turn_appended rs _ w0) S0) as [_ S1].
  destruct (agent_loop_inv env rs _ _ _ _ _ H S1) as ((suffix & A) & U & (new & R & Ln) & _).
  pose proof (appended_trans _ _ _ _ _ _ (with_turn_appended rs (User msg) w0) A) as A'.
  assert (R1 : requests (with_turn rs (User msg) w0) = requests w) by exact R0.
  rewrite R1 in R.
  split; [rewrite R, length_app; lia|].
  assert (U0 : uuid_drawn w0 = if absent session_id then S (uuid_drawn w) else uuid_drawn w).
  { destruct Cs as [(Ab & _ & ->) | (_ & _ & U0)]; [now rewrite Ab | exact U0]. }
  split; [rewrite U; exact U0|].
  split; [exact (proj2 (appended_history _ _ _ _ A' S0))|].
  intros sid Ne. unfold appended in A'. rewrite A', lookup_alter_ne by congruence.
  destruct Cs as [(_ & _ & ->) | (_ & I & _)]; [reflexivity|].
  rewrite I. apply lookup_insert_ne. congruence.
Qed.

(** X19 at a service that is unreachable. *)
Lemma a_call_is_bounded_and_local_witness :
  length (requests (snd (process_message failing_env None "Hi" demo_world))) <= 10 /\
  sessions (snd (process_message failing_env None "Hi" demo_world)) !! "s1"
    = Some [System SYSTEM_PROMPT].
Proof.
  destruct (process_message failing_env None "Hi" demo_world) as [r w'] eqn:X. cbn [snd].
  destruct (a_call_is_bounded_and_local failing_env None "Hi" demo_world r w' X)
    as (B & _ & _ & L).
  split; [exact (proj2 B)|].
  rewrite (L "s1"); [reflexivity | discriminate].
Defined.

(** X20. A session that [get_or_create_session] has returned is found
    again under the identifier returned: a second call with that
    identifier returns the same identifier and transcript and changes
    nothing (the identifier is not the empty string, which no call keeps). *)
Theorem session_is_found_again (env : Env) (session_id : option string) (w : World)
    (sid : string) (T : list Turn) (w' : World) :
  get_or_create_session env session_id w = (inr (sid, T), w') ->
  sid <> "" ->
  get_or_create_session env (Some sid) w' = (inr (sid, T), w').
Proof.
  intros H Ne.
  destruct (get_or_create_session_spec env session_id w) as (w0 & E & _ & _ & S0 & _).
  rewrite E in H. injection H as <- <- <-.
  set (rs := resolved env session_id w) in *.
  unfold get_or_create_session. cbn [absent in_sessions].
  assert (PyStr.is_empty rs = false) as -> by (destruct rs; [congruence | reflexivity]).
  now rewrite (bool_decide_eq_true_2 _ S0).
Qed.

(** X20 at a first call without identifier. *)
Lemma session_is_found_again_witness :
  get_or_create_session demo_env (Some "uuid-0")
    (snd (get_or_create_session demo_env None empty_world)) =
  (inr ("uuid-0", [System SYSTEM_PROMPT]),
   snd (get_or_create_session demo_env None empty_world)).
Proof.
  apply (session_is_found_again demo_env None empty_world); [reflexivity | discriminate].
Defined.

End Conversation.

Section DirectErrors.

Import Agent.





End DirectErrors.
